(** * Deployment descriptor of the realtime video server: image recipe and
      server bootstrap ([modal_app.py])

    The descriptor has two parts.  The module-level expression [image] chains
    builder methods into an ordered build recipe, and the function [web] is
    the bootstrap routine run on a started instance: it assigns four
    environment variables, changes the working directory, guards the creation
    of a symbolic link with an existence check and starts the server with
    [subprocess.Popen].

    [web] is embedded as a program in a state-and-exception monad over an
    explicit model of the process and its file system.  Every primitive of
    [os] and [subprocess] that [web] calls is a definition of that monad and
    records the system call it makes, so that statements about order and
    about the absence of calls are statements about the recorded trace.

    The model of the operating system keeps what the routine can observe: a
    tree of directories, regular files and symbolic links, path resolution
    with the kernel's bound on the links it traverses, and the search of an
    executable along [PATH].  Permissions of directories, read-only mounts
    and the exhaustion of processes or memory are left out: in the model a
    call fails only for a reason that lies in the tree.  The recipe is
    embedded as the list of its steps; of the platform that runs it, the
    file only models the matching of ignore patterns and the copy made by
    [add_local_dir]. *)

From Stdlib Require Import Ascii.
From stdpp Require Import gmap strings list fin_maps sorting pretty.

Open Scope string_scope.
Open Scope list_scope.

(** ** Strings and paths *)

(** [str.split(sep)] for a one-character separator. *)
Fixpoint split_on (sep : ascii) (s : string) : list string :=
  match s with
  | EmptyString => [""]
  | String c s' =>
      if Ascii.eqb c sep then "" :: split_on sep s'
      else match split_on sep s' with
           | [] => [String c ""]
           | x :: xs => String c x :: xs
           end
  end.

(** [sep.join(parts)]. *)
Fixpoint join_with (sep : string) (parts : list string) : string :=
  match parts with
  | [] => ""
  | [x] => x
  | x :: xs => x +:+ sep +:+ join_with sep xs
  end.

Fixpoint contains_char (c : ascii) (s : string) : bool :=
  match s with
  | EmptyString => false
  | String d s' => Ascii.eqb c d || contains_char c s'
  end.

Fixpoint ends_with_char (c : ascii) (s : string) : bool :=
  match s with
  | EmptyString => false
  | String d EmptyString => Ascii.eqb c d
  | String _ s' => ends_with_char c s'
  end.

Module posixpath.

(** [os.path.isabs]. *)
Definition isabs (p : string) : bool :=
  match p with
  | String "/" _ => true
  | _ => false
  end.

(** The names between the separators of a path.  Empty names (doubled
    separators) carry no meaning and are dropped.  A separator at the end of
    a path that holds a name asks for a directory: the kernel resolves such
    a path as if a dot followed it, so that [file/] fails where [file] is a
    regular file. *)
Definition components (p : string) : list string :=
  match filter (fun c => c ≠ "") (split_on "/" p) with
  | [] => []
  | names => if ends_with_char "/" p then names ++ ["."] else names
  end.

(** [os.path.join] of a directory and a name without separator. *)
Definition join (dir name : string) : string :=
  if decide (dir = "") then name
  else if ends_with_char "/" dir then dir +:+ name
  else dir +:+ "/" +:+ name.

End posixpath.

(** ** The process and its file system *)

Module os.

(** An entry of the file system.  A regular file carries its execute
    permission, a symbolic link its target text, stored as given. *)
Inductive node :=
| File (executable : bool)
| Dir
| Link (target : string).

#[global] Instance node_eq_dec : EqDecision node.
Proof. solve_decision. Defined.

(** Entries are keyed by their canonical absolute path, a list of names
    below the root; the root itself is always a directory. *)
Abbreviation filesystem := (gmap (list string) node).

Inductive errno := ENOENT | ENOTDIR | ELOOP | EEXIST | EACCES.

#[global] Instance errno_eq_dec : EqDecision errno.
Proof. solve_decision. Defined.

(** Python exceptions.  [OSError e] stands for the subclass selected by the
    error number. *)
Inductive exn :=
| OSError (e : errno)
| ValueError
| IndexError.

Definition FileNotFoundError := OSError ENOENT.
Definition NotADirectoryError := OSError ENOTDIR.
Definition FileExistsError := OSError EEXIST.
Definition PermissionError := OSError EACCES.

Inductive pstatus :=
| Running
| Exited (code : Z).

(** A child process: its argument vector, the executable it was started
    from, and the environment and working directory it inherited when it
    was started. *)
Record process := Process {
  argv : list string;
  exe : list string;
  penv : gmap string string;
  pcwd : list string;
  status : pstatus
}.

Record world := World {
  environ : gmap string string;
  cwd : list string;
  fs : filesystem;
  procs : list process;
  (** the exit code each child will report once it is waited for *)
  destiny : gmap nat Z
}.

Definition with_environ (e : gmap string string) (w : world) : world :=
  World e (cwd w) (fs w) (procs w) (destiny w).
Definition with_cwd (d : list string) (w : world) : world :=
  World (environ w) d (fs w) (procs w) (destiny w).
Definition with_fs (f : filesystem) (w : world) : world :=
  World (environ w) (cwd w) f (procs w) (destiny w).
Definition with_procs (ps : list process) (w : world) : world :=
  World (environ w) (cwd w) (fs w) ps (destiny w).

(** The system calls a routine makes, in the order it makes them. *)
Inductive syscall :=
| SysPutenv (name value : string)
| SysChdir (path : string)
| SysStat (path : string)
| SysSymlink (src dst : string)
| SysSpawn (args : list string)
| SysWait (pid : nat).

#[global] Instance syscall_eq_dec : EqDecision syscall.
Proof. solve_decision. Defined.

(** *** The monad: state, exceptions and the trace of calls *)

Inductive outcome (A : Type) :=
| Returned (a : A)
| Raised (e : exn).
Arguments Returned {A} a.
Arguments Raised {A} e.

Record run (A : Type) := Run {
  result : outcome A;
  after : world;
  calls : list syscall
}.
Arguments Run {A} _ _ _.
Arguments result {A} _.
Arguments after {A} _.
Arguments calls {A} _.

Definition M (A : Type) : Type := world -> run A.

Definition ret {A} (a : A) : M A := fun w => Run (Returned a) w [].

(** The calls [c] made before the run [r]. *)
Definition prepend {A} (c : list syscall) (r : run A) : run A :=
  match r with
  | Run o w c' => Run o w (c ++ c')
  end.

(** An exception ends the routine: what was done before it stays done. *)
Definition bind {A B} (m : M A) (k : A -> M B) : M B := fun w =>
  match m w with
  | Run (Returned a) w' c => prepend c (k a w')
  | Run (Raised e) w' c => Run (Raised e) w' c
  end.

(** *** Path resolution *)

Inductive found :=
| Found (p : list string) (n : node)
| Missing (p : list string).

(** The number of symbolic links one resolution may traverse. *)
Definition MAXSYMLINKS : nat := 40.

(** [walk fuel fs follow cur rest] resolves the names [rest] from the
    directory [cur].  A link met on the way is replaced by the names of its
    target, at the cost of one unit of [fuel]; the link in final position is
    returned as such when [follow] is off.  [Missing p] says that everything
    up to the last name resolved and that no entry has that name. *)
Fixpoint walk (fuel : nat) (fs : filesystem) (follow : bool)
    : list string -> list string -> errno + found :=
  fix go (cur rest : list string) {struct rest} : errno + found :=
    match rest with
    | [] => inr (Found cur Dir)
    | c :: rest' =>
        if decide (c = ".") then go cur rest'
        else if decide (c = "..") then go (removelast cur) rest'
        else
          let p := cur ++ [c] in
          match fs !! p with
          | None =>
              match rest' with
              | [] => inr (Missing p)
              | _ => inl ENOENT
              end
          | Some Dir => go p rest'
          | Some (File x) =>
              match rest' with
              | [] => inr (Found p (File x))
              | _ => inl ENOTDIR
              end
          | Some (Link t) =>
              match rest', follow with
              | [], false => inr (Found p (Link t))
              | _, _ =>
                  match fuel with
                  | O => inl ELOOP
                  | S fuel' =>
                      walk fuel' fs follow
                        (if posixpath.isabs t then [] else cur)
                        (posixpath.components t ++ rest')
                  end
              end
          end
    end.

Definition resolve (follow : bool) (path : string) (w : world)
    : errno + found :=
  if decide (path = "") then inl ENOENT
  else walk MAXSYMLINKS (fs w) follow
         (if posixpath.isabs path then [] else cwd w)
         (posixpath.components path).

(** *** [os.environ[name] = value] *)

Definition legal_env (name value : string) : bool :=
  negb (bool_decide (name = ""))
  && negb (contains_char "=" name)
  && negb (contains_char "000" name)
  && negb (contains_char "000" value).

Definition environ_set (name value : string) : M unit := fun w =>
  if legal_env name value
  then Run (Returned tt) (with_environ (<[name := value]> (environ w)) w)
           [SysPutenv name value]
  else Run (Raised ValueError) w [].

(** *** [os.chdir(path)] *)

Definition chdir (path : string) : M unit := fun w =>
  match resolve true path w with
  | inr (Found p Dir) => Run (Returned tt) (with_cwd p w) [SysChdir path]
  | inr (Found _ _) => Run (Raised NotADirectoryError) w [SysChdir path]
  | inr (Missing _) => Run (Raised FileNotFoundError) w [SysChdir path]
  | inl e => Run (Raised (OSError e)) w [SysChdir path]
  end.

(** *** [os.path.exists(path)]: [os.stat] succeeds.  It follows symbolic
    links, and every failure of the call reads as [False]. *)

Definition exists_in (path : string) (w : world) : bool :=
  match resolve true path w with
  | inr (Found _ _) => true
  | _ => false
  end.

Definition path_exists (path : string) : M bool := fun w =>
  Run (Returned (exists_in path w)) w [SysStat path].

(** *** [os.symlink(src, dst)]: the link is made at [dst] and holds the
    text [src]; [src] is not resolved.  An entry already at [dst], of any
    kind, is an error. *)

Definition symlink (src dst : string) : M unit := fun w =>
  match resolve false dst w with
  | inr (Missing p) =>
      Run (Returned tt) (with_fs (<[p := Link src]> (fs w)) w)
          [SysSymlink src dst]
  | inr (Found _ _) => Run (Raised FileExistsError) w [SysSymlink src dst]
  | inl e => Run (Raised (OSError e)) w [SysSymlink src dst]
  end.

End os.

Import os.

Declare Scope py_scope.
Delimit Scope py_scope with py.
Notation "x <- m ;; k" := (os.bind m (fun x => k))
  (at level 100, m at next level, right associativity) : py_scope.
Notation "m ;; k" := (os.bind m (fun _ => k))
  (at level 100, right associativity) : py_scope.

(** ** Child processes *)

Module subprocess.

(** [os.get_exec_path]: the directories of [PATH], those of [os.defpath]
    when the variable is unset. *)
Definition get_exec_path (w : world) : list string :=
  split_on ":" (default "/bin:/usr/bin" (environ w !! "PATH")).

(** The files tried for a program name: the name itself when it has a
    directory part, else the name under each directory of the search path. *)
Definition candidates (program : string) (w : world) : list string :=
  if contains_char "/" program then [program]
  else map (fun dir => posixpath.join dir program) (get_exec_path w).

(** One [execve]: the path must resolve to an executable regular file. *)
Definition try_exec (path : string) (w : world) : errno + list string :=
  match resolve true path w with
  | inr (Found p (File true)) => inr p
  | inr (Found _ _) => inl EACCES
  | inr (Missing _) => inl ENOENT
  | inl e => inl e
  end.

(** The candidates are tried in order.  [ENOENT] and [ENOTDIR] move on to the
    next one; when none runs, the first error of another kind is reported,
    and the error of the last attempt when there was none. *)
Fixpoint exec_search (cands : list string) (saved : option errno)
    (last : errno) (w : world) : errno + list string :=
  match cands with
  | [] => inl (default last saved)
  | c :: cs =>
      match try_exec c w with
      | inr p => inr p
      | inl e =>
          let saved' :=
            match saved with
            | Some _ => saved
            | None => if decide (e = ENOENT ∨ e = ENOTDIR) then None else Some e
            end in
          exec_search cs saved' e w
      end
  end.

(** [subprocess.Popen(args)]: the child is started and its handle returned.
    The child runs beside the caller; the constructor does not wait for it. *)
Definition Popen (args : list string) : M nat := fun w =>
  match args with
  | [] => Run (Raised IndexError) w []
  | program :: _ =>
      match exec_search (candidates program w) None ENOENT w with
      | inr p =>
          Run (Returned (length (procs w)))
              (with_procs
                 (procs w ++ [Process args p (environ w) (cwd w) Running]) w)
              [SysSpawn args]
      | inl e => Run (Raised (OSError e)) w [SysSpawn args]
      end
  end.

(** [Popen.wait()]: blocks until the child has exited and yields its exit
    code. *)
Definition wait (pid : nat) : M Z := fun w =>
  match procs w !! pid with
  | None => Run (Raised ValueError) w []
  | Some p =>
      match status p with
      | Exited code => Run (Returned code) w []
      | Running =>
          let code := default 0%Z (destiny w !! pid) in
          Run (Returned code)
              (with_procs
                 (<[pid := Process (argv p) (exe p) (penv p) (pcwd p)
                             (Exited code)]> (procs w)) w)
              [SysWait pid]
      end
  end.

End subprocess.

(** ** The image builder *)

Module modal.

(** One step of a build recipe, with the arguments the builder method was
    given. *)
Inductive step :=
| FromRegistry (tag : string) (add_python : option string)
| Entrypoint (args : list string)
| AptInstall (packages : list string)
| UvSync (uv_project_dir : string) (frozen : bool) (gpu : option string)
| PipInstall (packages : list string) (extra_options : string)
    (gpu : option string)
| Env (vars : list (string * string))
| RunCommands (commands : list string) (gpu : option string)
| AddLocalDir (local_path remote_path : string) (copy : bool)
    (ignore : list string).

#[global] Instance step_eq_dec : EqDecision step.
Proof. solve_decision. Defined.

(** A recipe is the list of its steps in the order they run; every builder
    method returns the recipe extended by one step. *)
Abbreviation Image := (list step).

Definition from_registry (tag : string) (add_python : option string) : Image :=
  [FromRegistry tag add_python].
Definition entrypoint (args : list string) (img : Image) : Image :=
  img ++ [Entrypoint args].
Definition apt_install (packages : list string) (img : Image) : Image :=
  img ++ [AptInstall packages].
Definition uv_sync (uv_project_dir : string) (frozen : bool)
    (gpu : option string) (img : Image) : Image :=
  img ++ [UvSync uv_project_dir frozen gpu].
Definition pip_install (packages : list string) (extra_options : string)
    (gpu : option string) (img : Image) : Image :=
  img ++ [PipInstall packages extra_options gpu].
Definition env (vars : list (string * string)) (img : Image) : Image :=
  img ++ [Env vars].
Definition run_commands (commands : list string) (gpu : option string)
    (img : Image) : Image :=
  img ++ [RunCommands commands gpu].
Definition add_local_dir (local_path remote_path : string) (copy : bool)
    (ignore : list string) (img : Image) : Image :=
  img ++ [AddLocalDir local_path remote_path copy ignore].

(** The options a function is registered with: those of [app.function],
    of [concurrent] and of [web_server]. *)
Record registration := Registration {
  reg_image : Image;
  reg_gpu : string;
  reg_timeout : N;
  reg_scaledown_window : N;
  reg_secrets : list string;
  reg_max_inputs : N;
  reg_port : N;
  reg_startup_timeout : N
}.

(** *** Ignore patterns

    The patterns of [add_local_dir] are matched against the path of a file
    relative to the copied directory.  A pattern without wildcard is
    compared with the path as a text.  A pattern with a wildcard is compiled
    to a regular expression anchored at both ends, in which [*] stands for
    any run of characters without a separator and [?] for one such
    character; the anchor at the end is [$], which also matches before a
    newline that ends the path.  A leading [!] makes the pattern an
    exclusion. *)

(** The line feed. *)
Definition newline : string := String "010" "".

(** [glob_from re pat] matches the rest [pat] of a pattern; [re] says that
    a wildcard has been passed, so that the pattern is a regular
    expression. *)
Fixpoint glob_from (re : bool) (pat : string) : string -> bool :=
  match pat with
  | EmptyString =>
      fun s => bool_decide (s = "") || re && bool_decide (s = newline)
  | String c pat' =>
      if Ascii.eqb c "*" then
        fix star (s : string) : bool :=
          glob_from true pat' s
          || match s with
             | EmptyString => false
             | String d s' => negb (Ascii.eqb d "/") && star s'
             end
      else fun s =>
        match s with
        | EmptyString => false
        | String d s' =>
            (Ascii.eqb c "?" && negb (Ascii.eqb d "/") || Ascii.eqb c d)
            && glob_from (re || Ascii.eqb c "?") pat' s'
        end
  end.

Definition glob (pat : string) : string -> bool := glob_from false pat.

Record pattern := Pattern {
  exclusion : bool;
  cleaned_pattern : string
}.

Definition parse_pattern (s : string) : pattern :=
  match s with
  | String "!" s' => Pattern true s'
  | _ => Pattern false s
  end.

(** The non-empty prefixes of a list, shortest first. *)
Fixpoint prefixes {A} (l : list A) : list (list A) :=
  match l with
  | [] => []
  | x :: l' => [x] :: map (cons x) (prefixes l')
  end.

(** A pattern hits a file when it matches the file's path or the path of one
    of the directories above it. *)
Definition pattern_hits (pat : string) (rel : list string) : bool :=
  existsb (fun pre => glob pat (join_with "/" pre)) (prefixes rel).

(** The patterns are read in order; the verdict so far decides whether the
    next one is looked at: an inclusion only while the file is not matched,
    an exclusion only while it is. *)
Definition matches (patterns : list pattern) (rel : list string) : bool :=
  match rel with
  | [] => false
  | _ =>
      fold_left
        (fun matched p =>
           if Bool.eqb (exclusion p) matched
           then if pattern_hits (cleaned_pattern p) rel
                then negb (exclusion p) else matched
           else matched)
        patterns false
  end.

Definition ignored (ignore : list string) (rel : list string) : bool :=
  matches (map parse_pattern ignore) rel.

(** *** The effect of [add_local_dir] on the file system of the image

    The local directory is given by its entries, each with its path
    relative to the directory.  The mount takes the regular files: every
    regular file that is not ignored is copied below the remote path, and
    the directories on the way are made where they are missing.  An entry
    of another kind is not copied as such; a directory comes into the image
    only as the parent of a file. *)

Fixpoint mkdirs (cur rest : list string) (f : filesystem) : filesystem :=
  match rest with
  | [] => f
  | c :: rest' =>
      let p := cur ++ [c] in
      mkdirs p rest'
        match f !! p with
        | None => <[p := Dir]> f
        | Some _ => f
        end
  end.

Definition copy_entry (remote : list string) (f : filesystem)
    (e : list string * node) : filesystem :=
  match e.1, e.2 with
  | _ :: _, File x =>
      <[remote ++ e.1 := File x]> (mkdirs remote (removelast e.1) f)
  | _, _ => f
  end.

Definition copy_tree (ignore : list string) (remote : list string)
    (tree : list (list string * node)) (f : filesystem) : filesystem :=
  fold_left (copy_entry remote)
    (filter (fun e => ignored ignore e.1 = false) tree)
    (mkdirs [] remote f).

(** The file system after a snapshot step, [tree] being the content of the
    local directory when the image is built. *)
Definition snapshot (s : step) (tree : list (list string * node))
    (f : filesystem) : filesystem :=
  match s with
  | AddLocalDir _ remote_path _ ignore =>
      copy_tree ignore (posixpath.components remote_path) tree f
  | _ => f
  end.

(** *** Reading a download command *)

Fixpoint option_value (flag : string) (words : list string) : option string :=
  match words with
  | [] => None
  | w :: rest =>
      if decide (w = flag) then head rest else option_value flag rest
  end.

(** The directory a [huggingface-cli download] command writes to. *)
Definition local_dir (command : string) : option string :=
  option_value "--local-dir" (split_on " " command).

Definition is_download (command : string) : bool :=
  String.prefix "huggingface-cli download " command.

End modal.

Import modal.

Notation "img '.>' method" := (method img)
  (at level 45, left associativity, only parsing).

(** ** [modal_app.py] *)

Definition app : string := "krea-realtime-video".

Definition cuda_version : string := "12.8.1".
Definition flavor : string := "devel".
Definition operating_sys : string := "ubuntu22.04".
Definition cuda_tag : string :=
  cuda_version +:+ "-" +:+ flavor +:+ "-" +:+ operating_sys.

Definition image : Image :=
  from_registry ("nvidia/cuda:" +:+ cuda_tag) (Some "3.11")
  .> entrypoint []
  .> apt_install ["ffmpeg"; "git"; "build-essential"]
  .> uv_sync "." true (Some "b200")
  .> pip_install ["hf-transfer"] "" None
  .> pip_install ["flash-attn"] "--no-build-isolation" (Some "b200")
  .> env [("HF_HUB_ENABLE_HF_TRANSFER", "1")]
  .> run_commands
       ["huggingface-cli download Wan-AI/Wan2.1-T2V-1.3B --local-dir-use-symlinks False --local-dir /root/wan_models/Wan2.1-T2V-1.3B"]
       (Some "b200")
  .> run_commands
       ["huggingface-cli download Wan-AI/Wan2.1-T2V-14B --local-dir-use-symlinks False --local-dir /root/wan_models/Wan2.1-T2V-14B"]
       (Some "b200")
  .> run_commands
       ["huggingface-cli download krea/krea-realtime-video krea-realtime-video-14b.safetensors --local-dir /root/checkpoints"]
       (Some "b200")
  .> add_local_dir "." "/root/app" true
       ["__pycache__"; ".git"; "*.pyc"; "outputs"; "wan_models";
        "checkpoints"; ".venv"; "uv.lock"; "*.lock"].

Definition web_registration : registration :=
  {| reg_image := image;
     reg_gpu := "b200";
     reg_timeout := 3600;
     reg_scaledown_window := 300;
     reg_secrets := [];
     reg_max_inputs := 10;
     reg_port := 8000;
     reg_startup_timeout := 600 |}.

Definition web : M unit :=
  (environ_set "MODEL_FOLDER" "/root/wan_models" ;;
   environ_set "CONFIG" "/root/app/configs/self_forcing_server_14b.yaml" ;;
   environ_set "CUDA_VISIBLE_DEVICES" "0" ;;
   environ_set "DO_COMPILE" "true" ;;
   chdir "/root/app" ;;
   present <- path_exists "checkpoints" ;;
   (if negb present
    then symlink "/root/checkpoints" "checkpoints"
    else ret tt) ;;
   let cmd :=
     ["uvicorn"; "release_server:app"; "--host"; "0.0.0.0";
      "--port"; "8000"; "--log-level"; "info"] in
   _ <- subprocess.Popen cmd ;;
   ret tt)%py.

(** ** Vocabulary of the statements *)

(** *** The environment *)

(** The environment once the four assignments of [web] are made. *)
Definition assigned (e : gmap string string) : gmap string string :=
  <["DO_COMPILE" := "true"]>
    (<["CUDA_VISIBLE_DEVICES" := "0"]>
       (<["CONFIG" := "/root/app/configs/self_forcing_server_14b.yaml"]>
          (<["MODEL_FOLDER" := "/root/wan_models"]> e))).

(** The Runtime Environment Record is populated: the four variables hold
    their fixed values. *)
Definition populated (e : gmap string string) : Prop :=
  e !! "MODEL_FOLDER" = Some "/root/wan_models"
  /\ e !! "CONFIG" = Some "/root/app/configs/self_forcing_server_14b.yaml"
  /\ e !! "CUDA_VISIBLE_DEVICES" = Some "0"
  /\ e !! "DO_COMPILE" = Some "true".

(** *** The trace *)

(** The calls of the four assignments. *)
Definition env_calls : list syscall :=
  [SysPutenv "MODEL_FOLDER" "/root/wan_models";
   SysPutenv "CONFIG" "/root/app/configs/self_forcing_server_14b.yaml";
   SysPutenv "CUDA_VISIBLE_DEVICES" "0";
   SysPutenv "DO_COMPILE" "true"].

(** The command line of the server, as [web] builds it. *)
Definition server_cmd : list string :=
  ["uvicorn"; "release_server:app"; "--host"; "0.0.0.0";
   "--port"; "8000"; "--log-level"; "info"].

(** The calls of a kind. *)
Definition is_spawn (c : syscall) : bool :=
  match c with SysSpawn _ => true | _ => false end.

Definition is_symlink (c : syscall) : bool :=
  match c with SysSymlink _ _ => true | _ => false end.

(** *** The file system *)

(** The link text [t], read from the directory [dir], leads to nothing in
    the file system [f], however many links a resolution may traverse. *)
Definition dangling (f : filesystem) (dir : list string) (t : string) : Prop :=
  forall fuel q n,
    walk fuel f true (if posixpath.isabs t then [] else dir)
      (posixpath.components t)
    <> inr (Found q n).

(** The names the snapshot excludes with everything under them. *)
Definition excluded_names : list string :=
  ["checkpoints"; "wan_models"; "outputs"; "__pycache__"; ".git"; ".venv";
   "uv.lock"].

(** The commands of the [run_commands] steps of a recipe, in order. *)
Definition run_commands_of (img : Image) : list string :=
  flat_map
    (fun s => match s with RunCommands commands _ => commands | _ => [] end)
    img.

(** *** The phases of the ordering policy *)

Inductive phase :=
| Base
| SystemPackages
| LockedDependencies
| NativeExtension
| Download
| Snapshot.

Definition phase_rank (p : phase) : nat :=
  match p with
  | Base => 1
  | SystemPackages => 2
  | LockedDependencies => 3
  | NativeExtension => 4
  | Download => 5
  | Snapshot => 6
  end.

(** The phase a step belongs to.  A registry image is the base; a
    [uv_sync] that is [frozen] installs the locked dependencies; a
    [pip_install] given a GPU builds a native extension with accelerator
    access; a [run_commands] all of whose commands are
    [huggingface-cli download] fetches remote artifacts.  Steps that only
    configure the image, or install an unlocked helper, have no phase. *)
Definition phase_of (s : step) : option phase :=
  match s with
  | FromRegistry _ _ => Some Base
  | AptInstall _ => Some SystemPackages
  | UvSync _ true _ => Some LockedDependencies
  | PipInstall _ _ (Some _) => Some NativeExtension
  | RunCommands commands _ =>
      if forallb is_download commands then Some Download else None
  | AddLocalDir _ _ _ _ => Some Snapshot
  | _ => None
  end.

(** *** The runs of [web] *)

(** The world of [web] after the assignments and the change of directory to
    [d], over the file system [f]. *)
Definition entered (d : list string) (f : filesystem) (w : world) : world :=
  World (assigned (environ w)) d f (procs w) (destiny w).

(** The last statement of [web], run in the world [w]. *)
Definition launch (w : world) : run unit :=
  match
    subprocess.exec_search (subprocess.candidates "uvicorn" w) None ENOENT w
  with
  | inr x =>
      Run (Returned tt)
          (with_procs
             (procs w ++ [Process server_cmd x (environ w) (cwd w) Running]) w)
          [SysSpawn server_cmd]
  | inl e => Run (Raised (OSError e)) w [SysSpawn server_cmd]
  end.

(** The four ways a run of [web] can go: the application root is no
    directory; the expected path exists and the link is left alone; an entry
    sits at the expected path without resolving; nothing is there and the
    link is made. *)
Inductive web_shape (w : world) : run unit -> Prop :=
| shape_no_root e :
    (forall d, resolve true "/root/app" w <> inr (Found d Dir)) ->
    result (chdir "/root/app" w) = Raised e ->
    web_shape w
      (Run (Raised e) (with_environ (assigned (environ w)) w)
           (env_calls ++ [SysChdir "/root/app"]))
| shape_present d :
    resolve true "/root/app" w = inr (Found d Dir) ->
    exists_in "checkpoints" (with_cwd d w) = true ->
    web_shape w
      (prepend (env_calls ++ [SysChdir "/root/app"; SysStat "checkpoints"])
         (launch (entered d (fs w) w)))
| shape_stale d n :
    resolve true "/root/app" w = inr (Found d Dir) ->
    exists_in "checkpoints" (with_cwd d w) = false ->
    fs w !! (d ++ ["checkpoints"]) = Some n ->
    web_shape w
      (Run (Raised FileExistsError) (entered d (fs w) w)
         (env_calls ++ [SysChdir "/root/app"; SysStat "checkpoints";
                        SysSymlink "/root/checkpoints" "checkpoints"]))
| shape_linked d :
    resolve true "/root/app" w = inr (Found d Dir) ->
    exists_in "checkpoints" (with_cwd d w) = false ->
    fs w !! (d ++ ["checkpoints"]) = None ->
    web_shape w
      (prepend (env_calls ++ [SysChdir "/root/app"; SysStat "checkpoints";
                              SysSymlink "/root/checkpoints" "checkpoints"])
         (launch
            (entered d
               (<[d ++ ["checkpoints"] := Link "/root/checkpoints"]> (fs w))
               w))).

(** ** Sample instances *)

(** An instance as the image leaves it: the application root, the
    downloaded checkpoint directory and the server executable on the default
    search path. *)
Definition fresh_fs : filesystem :=
  list_to_map
    [(["root"], Dir);
     (["root"; "app"], Dir);
     (["root"; "app"; "release_server.py"], File false);
     (["root"; "checkpoints"], Dir);
     (["root"; "checkpoints"; "krea-realtime-video-14b.safetensors"],
      File false);
     (["usr"], Dir);
     (["usr"; "bin"], Dir);
     (["usr"; "bin"; "uvicorn"], File true)].

Definition fresh_instance : world := World ∅ [] fresh_fs [] ∅.

(** The same instance without the checkpoint directory. *)
Definition bare_fs : filesystem :=
  list_to_map
    [(["root"], Dir);
     (["root"; "app"], Dir);
     (["root"; "app"; "release_server.py"], File false);
     (["usr"], Dir);
     (["usr"; "bin"], Dir);
     (["usr"; "bin"; "uvicorn"], File true)].

Definition bare_instance : world := World ∅ [] bare_fs [] ∅.

(** An instance on which the link is already there and its target is not. *)
Definition stale_instance : world :=
  World ∅ []
    (<[["root"; "app"; "checkpoints"] := Link "/root/checkpoints"]> bare_fs)
    [] ∅.

(** An instance with an empty file system. *)
Definition empty_instance : world := World ∅ [] ∅ [] ∅.

(** A second instance with the file system of [fresh_instance] and
    everything else different: another search path, another working
    directory. *)
Definition other_instance : world :=
  World {["PATH" := "/opt/none"]} ["usr"] fresh_fs [] ∅.

(** The image below the snapshot step, reduced to what matters here: the
    home directory with the three download directories, and the server
    executable. *)
Definition downloaded_fs : filesystem :=
  list_to_map
    [(["root"], Dir);
     (["root"; "wan_models"], Dir);
     (["root"; "wan_models"; "Wan2.1-T2V-1.3B"], Dir);
     (["root"; "wan_models"; "Wan2.1-T2V-14B"], Dir);
     (["root"; "checkpoints"], Dir);
     (["root"; "checkpoints"; "krea-realtime-video-14b.safetensors"],
      File false);
     (["usr"], Dir);
     (["usr"; "bin"], Dir);
     (["usr"; "bin"; "uvicorn"], File true)].

(** A local source directory that holds entries of every excluded kind. *)
Definition sample_tree : list (list string * node) :=
  [(["modal_app.py"], File false);
   (["release_server.py"], File false);
   (["configs"; "self_forcing_server_14b.yaml"], File false);
   (["checkpoints"; "local.safetensors"], File false);
   (["wan_models"; "Wan2.1-T2V-14B"; "config.json"], File false);
   (["outputs"; "clip.mp4"], File false);
   (["__pycache__"; "modal_app.cpython-311.pyc"], File false);
   ([".git"; "HEAD"], File false);
   ([".venv"; "bin"; "python"], File true);
   (["uv.lock"], File false)].

(** The fresh instance without the server executable. *)
Definition serverless_instance : world :=
  World ∅ [] (delete ["usr"; "bin"; "uvicorn"] fresh_fs) [] ∅.

(** An instance whose application root is a regular file. *)
Definition blocked_instance : world :=
  World ∅ [] (<[["root"; "app"] := File false]> bare_fs) [] ∅.
(** The ignore patterns of a step. *)
Definition ignore_of (s : step) : list string :=
  match s with
  | AddLocalDir _ _ _ ignore => ignore
  | _ => []
  end.

(** The GPU a step asks for. *)
Definition gpu_of (s : step) : option string :=
  match s with
  | UvSync _ _ gpu => gpu
  | PipInstall _ _ gpu => gpu
  | RunCommands _ gpu => gpu
  | _ => None
  end.

(** A pattern without wildcard. *)
Definition literal (pat : string) : bool :=
  negb (contains_char "*" pat) && negb (contains_char "?" pat).
(** A container started from the image built over [downloaded_fs] with
    [sample_tree] as the local directory. *)
Definition built_instance : world :=
  World ∅ []
    (copy_tree
       ["__pycache__"; ".git"; "*.pyc"; "outputs"; "wan_models";
        "checkpoints"; ".venv"; "uv.lock"; "*.lock"]
       ["root"; "app"] sample_tree downloaded_fs)
    [] ∅.
(** *** The build state

    What a later build step finds of the earlier ones: the packages
    [pip_install] has installed and the variables [env] has set. *)
Record build_state := BuildState {
  pip_packages : list string;
  build_env : gmap string string
}.

Definition build_step (b : build_state) (s : step) : build_state :=
  match s with
  | PipInstall packages _ _ =>
      BuildState (pip_packages b ++ packages) (build_env b)
  | Env vars =>
      BuildState (pip_packages b)
        (fold_left (fun m kv => <[kv.1 := kv.2]> m) vars (build_env b))
  | _ => b
  end.

(** The build state step [n] of a recipe runs in. *)
Definition build_before (n : nat) (img : Image) : build_state :=
  fold_left build_step (take n img) (BuildState [] ∅).

(** The variables [web] assigns. *)
Definition web_variables : list string :=
  ["MODEL_FOLDER"; "CONFIG"; "CUDA_VISIBLE_DEVICES"; "DO_COMPILE"].

(** A name an entry of a directory can have: not empty, without separator,
    and neither of the two names every directory holds. *)
Definition file_name (c : string) : bool :=
  negb (contains_char "/" c)
  && negb (bool_decide (c = ""))
  && negb (bool_decide (c = "."))
  && negb (bool_decide (c = "..")).

(** The fresh instance, entered, with a link of target [t] at the expected
    path. *)
Definition linked_instance (t : string) : world :=
  World ∅ ["root"; "app"]
    (<[["root"; "app"; "checkpoints"] := Link t]> fresh_fs) [] ∅.

Arguments resolve : simpl never.
Arguments subprocess.exec_search : simpl never.
Arguments subprocess.candidates : simpl never.

(** * Properties *)

(** A call that is none of the calls of a written-out trace. *)
Ltac absurd_call H :=
  unfold env_calls in H; simpl in H;
  repeat (apply elem_of_cons in H as [H|H]; [discriminate|]);
  by apply elem_of_nil in H.

(** A decidable closed fact, by evaluation. *)
Ltac by_evaluation := apply (bool_decide_unpack _); vm_compute; exact I.

(** ** The monad and the primitives *)

Lemma walk_nil fuel f follow cur :
  walk fuel f follow cur [] = inr (Found cur Dir).
Proof. destruct fuel; reflexivity. Qed.

Lemma walk_cons fuel f follow cur c rest :
  walk fuel f follow cur (c :: rest) =
  if decide (c = ".") then walk fuel f follow cur rest
  else if decide (c = "..") then walk fuel f follow (removelast cur) rest
  else
    match f !! (cur ++ [c]) with
    | None =>
        match rest with
        | [] => inr (Missing (cur ++ [c]))
        | _ => inl ENOENT
        end
    | Some Dir => walk fuel f follow (cur ++ [c]) rest
    | Some (File x) =>
        match rest with
        | [] => inr (Found (cur ++ [c]) (File x))
        | _ => inl ENOTDIR
        end
    | Some (Link t) =>
        match rest, follow with
        | [], false => inr (Found (cur ++ [c]) (Link t))
        | _, _ =>
            match fuel with
            | O => inl ELOOP
            | S fuel' =>
                walk fuel' f follow
                  (if posixpath.isabs t then [] else cur)
                  (posixpath.components t ++ rest)
            end
        end
    end.
Proof. destruct fuel; reflexivity. Qed.

(** Resolution reads the file system and, for a relative path, the working
    directory; nothing else of the world. *)
Lemma resolve_ext follow path w w' :
  fs w = fs w' -> cwd w = cwd w' ->
  resolve follow path w = resolve follow path w'.
Proof. intros Hf Hc. unfold resolve. rewrite Hf, Hc. reflexivity. Qed.

Lemma resolve_abs follow path w w' :
  posixpath.isabs path = true -> fs w = fs w' ->
  resolve follow path w = resolve follow path w'.
Proof. intros Ha Hf. unfold resolve. rewrite Ha, Hf. reflexivity. Qed.

Lemma exists_in_ext path w w' :
  fs w = fs w' -> cwd w = cwd w' -> exists_in path w = exists_in path w'.
Proof.
  intros Hf Hc. unfold exists_in. rewrite (resolve_ext _ _ w w' Hf Hc).
  reflexivity.
Qed.

(** A plain name is looked up in the working directory; without following,
    whatever entry is there is found as it is. *)
Lemma resolve_checkpoints_nofollow w :
  resolve false "checkpoints" w =
  match fs w !! (cwd w ++ ["checkpoints"]) with
  | None => inr (Missing (cwd w ++ ["checkpoints"]))
  | Some n => inr (Found (cwd w ++ ["checkpoints"]) n)
  end.
Proof.
  unfold resolve. rewrite decide_False by discriminate.
  change (posixpath.isabs "checkpoints") with false.
  change (posixpath.components "checkpoints") with ["checkpoints"].
  cbv iota. rewrite walk_cons.
  rewrite decide_False by discriminate. rewrite decide_False by discriminate.
  destruct (fs w !! (cwd w ++ ["checkpoints"])) as [[x| |t]|]; reflexivity.
Qed.

(** With following, a link there is replaced by its target. *)
Lemma resolve_checkpoints_follow w :
  resolve true "checkpoints" w =
  match fs w !! (cwd w ++ ["checkpoints"]) with
  | None => inr (Missing (cwd w ++ ["checkpoints"]))
  | Some (Link t) =>
      walk (pred MAXSYMLINKS) (fs w) true
        (if posixpath.isabs t then [] else cwd w)
        (posixpath.components t)
  | Some n => inr (Found (cwd w ++ ["checkpoints"]) n)
  end.
Proof.
  unfold resolve. rewrite decide_False by discriminate.
  change (posixpath.isabs "checkpoints") with false.
  change (posixpath.components "checkpoints") with ["checkpoints"].
  cbv iota. rewrite walk_cons.
  rewrite decide_False by discriminate. rewrite decide_False by discriminate.
  destruct (fs w !! (cwd w ++ ["checkpoints"])) as [[x| |t]|]; try reflexivity.
  change MAXSYMLINKS with (S (pred MAXSYMLINKS)) at 1.
  cbv iota. rewrite app_nil_r. reflexivity.
Qed.

(** ** The shape of a run of [web] *)

Lemma shape_eq w r r' : web_shape w r -> r = r' -> web_shape w r'.
Proof. intros H <-. exact H. Qed.

Lemma web_has_shape w : web_shape w (web w).
Proof.
  destruct w as [e c f ps d0].
  set (W := World e c f ps d0).
  unfold web, bind. simpl.
  unfold chdir. unfold with_environ. simpl. fold (assigned e).
  rewrite (resolve_ext true "/root/app" (World (assigned e) c f ps d0)
             W eq_refl eq_refl).
  destruct (resolve true "/root/app" W) as [er|[d [x| |t]|q]] eqn:Hcd;
    try (eapply shape_eq;
         [apply shape_no_root;
          [intros d'; rewrite Hcd; discriminate
          |unfold chdir; rewrite Hcd; reflexivity]
         |reflexivity]).
  unfold with_cwd. simpl.
  rewrite (exists_in_ext "checkpoints" (World (assigned e) d f ps d0)
             (with_cwd d W) eq_refl eq_refl).
  destruct (exists_in "checkpoints" (with_cwd d W)) eqn:Hex; simpl.
  - eapply shape_eq; [apply (shape_present W d Hcd Hex)|].
    unfold launch, entered. simpl.
    destruct (subprocess.exec_search _ _ _ _); reflexivity.
  - unfold symlink. rewrite resolve_checkpoints_nofollow. simpl.
    destruct (f !! (d ++ ["checkpoints"])) as [n|] eqn:Hl.
    + eapply shape_eq; [apply (shape_stale W d n Hcd Hex Hl)|]. reflexivity.
    + eapply shape_eq; [apply (shape_linked W d Hcd Hex Hl)|].
      unfold launch, entered, with_fs. simpl.
      destruct (subprocess.exec_search _ _ _ _); reflexivity.
Qed.

Lemma result_prepend {A} c (r : run A) : result (prepend c r) = result r.
Proof. destruct r; reflexivity. Qed.

Lemma after_prepend {A} c (r : run A) : after (prepend c r) = after r.
Proof. destruct r; reflexivity. Qed.

Lemma calls_prepend {A} c (r : run A) : calls (prepend c r) = c ++ calls r.
Proof. destruct r; reflexivity. Qed.

(** The last statement makes one call, the spawn of the server command. *)
Lemma calls_launch w : calls (launch w) = [SysSpawn server_cmd].
Proof. unfold launch. by destruct (subprocess.exec_search _ _ _ _). Qed.

(** It leaves everything but the process table as it was, *)
Lemma launch_environ w : environ (after (launch w)) = environ w.
Proof. unfold launch. by destruct (subprocess.exec_search _ _ _ _). Qed.

Lemma launch_cwd w : cwd (after (launch w)) = cwd w.
Proof. unfold launch. by destruct (subprocess.exec_search _ _ _ _). Qed.

Lemma launch_fs w : fs (after (launch w)) = fs w.
Proof. unfold launch. by destruct (subprocess.exec_search _ _ _ _). Qed.

Lemma launch_destiny w : destiny (after (launch w)) = destiny w.
Proof. unfold launch. by destruct (subprocess.exec_search _ _ _ _). Qed.

Create Rewrite HintDb run.
#[global] Hint Rewrite @result_prepend @after_prepend @calls_prepend
  calls_launch launch_environ launch_cwd launch_fs launch_destiny : run.

(** and it either returns with one running child added to the table or
    raises with the table unchanged. *)
Lemma launch_cases w :
  (exists x,
      subprocess.exec_search (subprocess.candidates "uvicorn" w) None ENOENT w
      = inr x
      /\ result (launch w) = Returned tt
      /\ procs (after (launch w))
         = procs w ++ [Process server_cmd x (environ w) (cwd w) Running])
  \/ (exists e,
      subprocess.exec_search (subprocess.candidates "uvicorn" w) None ENOENT w
      = inl e
      /\ result (launch w) = Raised (OSError e)
      /\ procs (after (launch w)) = procs w).
Proof.
  unfold launch.
  destruct (subprocess.exec_search _ _ _ _) as [e|x]; [right|left]; eauto.
Qed.

(** The calls of a run are one of four sequences. *)
Lemma web_calls w :
  calls (web w) = env_calls ++ [SysChdir "/root/app"]
  \/ calls (web w)
     = env_calls ++ [SysChdir "/root/app"; SysStat "checkpoints";
                     SysSpawn server_cmd]
  \/ calls (web w)
     = env_calls ++ [SysChdir "/root/app"; SysStat "checkpoints";
                     SysSymlink "/root/checkpoints" "checkpoints"]
  \/ calls (web w)
     = env_calls ++ [SysChdir "/root/app"; SysStat "checkpoints";
                     SysSymlink "/root/checkpoints" "checkpoints";
                     SysSpawn server_cmd].
Proof.
  destruct (web_has_shape w); autorewrite with run; simpl; auto.
Qed.

Lemma assigned_populated e : populated (assigned e).
Proof.
  unfold populated, assigned.
  repeat split;
    repeat first [rewrite lookup_insert_eq; reflexivity
                 |rewrite lookup_insert_ne by discriminate].
Qed.

Lemma assigned_other e k :
  k ∉ ["MODEL_FOLDER"; "CONFIG"; "CUDA_VISIBLE_DEVICES"; "DO_COMPILE"] ->
  assigned e !! k = e !! k.
Proof.
  intros Hk. unfold assigned.
  rewrite !lookup_insert_ne; [reflexivity|..]; intros <-; apply Hk;
    repeat constructor.
Qed.

(** What a run leaves of the environment, whatever its shape. *)
Lemma web_environ w : environ (after (web w)) = assigned (environ w).
Proof.
  destruct (web_has_shape w); autorewrite with run; reflexivity.
Qed.

(** The children a run adds to the process table. *)
Lemma web_procs w :
  procs (after (web w)) = procs w
  \/ exists d x,
       resolve true "/root/app" w = inr (Found d Dir)
       /\ result (web w) = Returned tt
       /\ procs (after (web w))
          = procs w ++ [Process server_cmd x (assigned (environ w)) d Running].
Proof.
  destruct (web_has_shape w) as [e Hn He|d Hd Hx|d n Hd Hx Hl|d Hd Hx Hl];
    rewrite ?after_prepend, ?result_prepend; auto.
  - destruct (launch_cases (entered d (fs w) w)) as [(x&_&Hr&Hp)|(e&_&_&Hp)];
      [right; exists d, x|left]; auto.
  - destruct
      (launch_cases
         (entered d
            (<[d ++ ["checkpoints"]:=Link "/root/checkpoints"]> (fs w)) w))
      as [(x&_&Hr&Hp)|(e&_&_&Hp)]; [right; exists d, x|left]; auto.
Qed.

(** ** The command line of the server *)

(** C1. Whenever [web] reaches the spawn, the command line handed to
    [Popen] is exactly the eight words of [cmd]. *)
Theorem web_spawn_command (w : world) (args : list string) :
  SysSpawn args ∈ calls (web w) ->
  args = ["uvicorn"; "release_server:app"; "--host"; "0.0.0.0";
          "--port"; "8000"; "--log-level"; "info"].
Proof.
  intros Hin.
  destruct (web_calls w) as [H|[H|[H|H]]]; rewrite H in Hin;
    unfold env_calls in Hin; simpl in Hin;
    repeat (apply elem_of_cons in Hin as [Hin|Hin]; [try discriminate|]);
    try (by apply elem_of_nil in Hin);
    injection Hin as ->; reflexivity.
Qed.

Lemma web_spawn_command_witness :
  SysSpawn server_cmd ∈ calls (web fresh_instance)
  /\ server_cmd = ["uvicorn"; "release_server:app"; "--host"; "0.0.0.0";
                   "--port"; "8000"; "--log-level"; "info"].
Proof.
  assert (H : SysSpawn server_cmd ∈ calls (web fresh_instance)).
  { by_evaluation. }
  split; [exact H|]. exact (web_spawn_command fresh_instance server_cmd H).
Defined.

(** The port declared to the platform is the port the server binds. *)
Lemma web_port_is_bound :
  option_value "--port" server_cmd = Some (pretty (reg_port web_registration)).
Proof. vm_compute. reflexivity. Qed.

(** ** The environment at the spawn *)

(** C2. The four assignments are the first four calls of every run; a spawn
    comes after all of them, and both the environment of the routine and the
    one its child inherits hold the four fixed values. *)
Theorem web_environment_before_spawn (w : world) (i : nat)
    (args : list string) :
  calls (web w) !! i = Some (SysSpawn args) ->
  take 4 (calls (web w)) = env_calls
  /\ (forall j name value,
        calls (web w) !! j = Some (SysPutenv name value) -> j < i)
  /\ populated (environ (after (web w)))
  /\ (forall n p,
        length (procs w) <= n -> procs (after (web w)) !! n = Some p ->
        populated (penv p)).
Proof.
  intros Hi. split; [|split; [|split]].
  - destruct (web_calls w) as [H|[H|[H|H]]]; rewrite H; reflexivity.
  - intros j name value Hj.
    destruct (web_calls w) as [H|[H|[H|H]]]; rewrite H in Hi, Hj;
      unfold env_calls in Hi, Hj; simpl in Hi, Hj;
      repeat (destruct i as [|i]; simpl in Hi; try discriminate Hi);
      repeat (destruct j as [|j]; simpl in Hj; try discriminate Hj; try lia).
  - rewrite web_environ. apply assigned_populated.
  - intros n p Hn Hp.
    destruct (web_procs w) as [H|(d&x&_&_&H)]; rewrite H in Hp.
    + apply lookup_lt_Some in Hp. lia.
    + apply lookup_app_Some in Hp as [Hp|[_ Hp]].
      * apply lookup_lt_Some in Hp. lia.
      * apply list_lookup_singleton_Some in Hp as [_ <-].
        apply assigned_populated.
Qed.

Lemma web_environment_before_spawn_witness :
  take 4 (calls (web fresh_instance)) = env_calls
  /\ (forall j name value,
        calls (web fresh_instance) !! j = Some (SysPutenv name value) -> j < 7)
  /\ populated (environ (after (web fresh_instance)))
  /\ (forall n p,
        length (procs fresh_instance) <= n ->
        procs (after (web fresh_instance)) !! n = Some p ->
        populated (penv p)).
Proof.
  apply (web_environment_before_spawn fresh_instance 7 server_cmd).
  vm_compute. reflexivity.
Defined.

(** ** What a run changes *)

(** The file system after a run: as before, or with the one link added at
    a path that had no entry. *)
Lemma web_fs w :
  fs (after (web w)) = fs w
  \/ exists d,
       resolve true "/root/app" w = inr (Found d Dir)
       /\ fs w !! (d ++ ["checkpoints"]) = None
       /\ fs (after (web w))
          = <[d ++ ["checkpoints"] := Link "/root/checkpoints"]> (fs w).
Proof.
  destruct (web_has_shape w) as [e Hn He|d Hd Hx|d n Hd Hx Hl|d Hd Hx Hl];
    rewrite ?after_prepend; auto.
  - left. rewrite launch_fs. reflexivity.
  - right. exists d. rewrite launch_fs. auto.
Qed.

(** The working directory after a run: as before, or the directory the
    application root resolves to. *)
Lemma web_cwd w :
  cwd (after (web w)) = cwd w
  \/ resolve true "/root/app" w = inr (Found (cwd (after (web w))) Dir).
Proof.
  destruct (web_has_shape w) as [e Hn He|d Hd Hx|d n Hd Hx Hl|d Hd Hx Hl];
    rewrite ?after_prepend, ?launch_cwd; auto.
Qed.

Lemma web_destiny w : destiny (after (web w)) = destiny w.
Proof.
  destruct (web_has_shape w); autorewrite with run; reflexivity.
Qed.

(** ** The spawn does not block *)

(** C5. When the spawn succeeds, that is, when a run has added a child to
    the process table, [web] has returned to its caller; it has made no
    [wait] call, the spawn is its last call and its only one, and the child
    is still running when [web] returns. *)
Theorem web_returns_without_waiting (w : world) :
  procs (after (web w)) <> procs w ->
  result (web w) = Returned tt
  /\ (forall pid, SysWait pid ∉ calls (web w))
  /\ (exists pre,
        calls (web w) = pre ++ [SysSpawn server_cmd]
        /\ forall args, SysSpawn args ∉ pre)
  /\ (exists child,
        procs (after (web w)) = procs w ++ [child]
        /\ argv child = server_cmd
        /\ status child = Running).
Proof.
  intros Hp.
  destruct (web_procs w) as [H|(d&x&_&Hr&H)]; [contradiction|].
  split; [exact Hr|]. split; [|split].
  - intros pid Hin.
    destruct (web_calls w) as [Hc|[Hc|[Hc|Hc]]]; rewrite Hc in Hin;
      absurd_call Hin.
  - destruct (web_has_shape w) as [e Hn He|d' Hd Hx|d' n Hd Hx Hl|d' Hd Hx Hl];
      rewrite ?result_prepend in Hr; try discriminate Hr;
      rewrite calls_prepend, calls_launch.
    + exists (env_calls ++ [SysChdir "/root/app"; SysStat "checkpoints"]).
      split; [reflexivity|]. intros args Hin. absurd_call Hin.
    + exists (env_calls ++ [SysChdir "/root/app"; SysStat "checkpoints";
                           SysSymlink "/root/checkpoints" "checkpoints"]).
      split; [reflexivity|]. intros args Hin. absurd_call Hin.
  - eexists. split; [exact H|]. split; reflexivity.
Qed.

Lemma web_returns_without_waiting_witness :
  result (web fresh_instance) = Returned tt
  /\ (forall pid, SysWait pid ∉ calls (web fresh_instance))
  /\ (exists pre,
        calls (web fresh_instance) = pre ++ [SysSpawn server_cmd]
        /\ forall args, SysSpawn args ∉ pre)
  /\ (exists child,
        procs (after (web fresh_instance)) = procs fresh_instance ++ [child]
        /\ argv child = server_cmd
        /\ status child = Running).
Proof.
  apply (web_returns_without_waiting fresh_instance).
  vm_compute. discriminate.
Defined.

(** What [web] does not do: a [wait] on a running child is a call of its
    own, and it returns only once the child has exited. *)
Lemma wait_ends_child w pid p :
  procs w !! pid = Some p ->
  status p = Running ->
  calls (subprocess.wait pid w) = [SysWait pid]
  /\ exists code p',
       result (subprocess.wait pid w) = Returned code
       /\ procs (after (subprocess.wait pid w)) !! pid = Some p'
       /\ status p' = Exited code.
Proof.
  intros Hp Hs. unfold subprocess.wait. rewrite Hp, Hs.
  split; [reflexivity|].
  exists (default 0%Z (destiny w !! pid)),
    (Process (argv p) (exe p) (penv p) (pcwd p)
       (Exited (default 0%Z (destiny w !! pid)))).
  split; [reflexivity|]. split; [|reflexivity].
  apply list_lookup_insert_eq. by apply lookup_lt_Some in Hp.
Qed.

(** ** The effects of a run are bounded *)

(** C8, as the code has it.  A run changes the environment at the four
    names only; it moves the working directory to where the application root
    resolves or leaves it; it writes to the file system at most once, and
    that write puts the link at a path that had no entry; it makes at most
    one symlink call and at most one spawn; the process table gains at most
    one child, exactly one when the routine returns and none when it
    raises, be it before the spawn or at it. *)
Theorem web_effects_bounded (w : world) :
  (forall k,
     k ∉ ["MODEL_FOLDER"; "CONFIG"; "CUDA_VISIBLE_DEVICES"; "DO_COMPILE"] ->
     environ (after (web w)) !! k = environ w !! k)
  /\ (cwd (after (web w)) = cwd w
      \/ resolve true "/root/app" w = inr (Found (cwd (after (web w))) Dir))
  /\ (fs (after (web w)) = fs w
      \/ exists p,
           fs w !! p = None
           /\ fs (after (web w)) = <[p := Link "/root/checkpoints"]> (fs w))
  /\ length (filter is_symlink (calls (web w))) <= 1
  /\ length (filter is_spawn (calls (web w))) <= 1
  /\ (procs (after (web w)) = procs w
      \/ exists child, procs (after (web w)) = procs w ++ [child])
  /\ (result (web w) = Returned tt ->
      exists child, procs (after (web w)) = procs w ++ [child])
  /\ (forall e, result (web w) = Raised e -> procs (after (web w)) = procs w)
  /\ destiny (after (web w)) = destiny w.
Proof.
  repeat split.
  - intros k Hk. rewrite web_environ. by apply assigned_other.
  - apply web_cwd.
  - destruct (web_fs w) as [H|(d&_&Hn&H)]; eauto.
  - destruct (web_calls w) as [H|[H|[H|H]]]; rewrite H; simpl; lia.
  - destruct (web_calls w) as [H|[H|[H|H]]]; rewrite H; simpl; lia.
  - destruct (web_procs w) as [H|(d&x&_&_&H)]; eauto.
  - intros Hr.
    destruct (web_has_shape w) as [e Hn He|d Hd Hx|d n Hd Hx Hl|d Hd Hx Hl];
      rewrite ?result_prepend in Hr; try discriminate Hr;
      rewrite after_prepend.
    + destruct (launch_cases (entered d (fs w) w))
        as [(x&_&_&Hp)|(e&_&He&_)]; [eauto|congruence].
    + match type of Hr with result (launch ?W) = _ =>
        destruct (launch_cases W) as [(x&_&_&Hp)|(e&_&He&_)];
          [eauto|congruence] end.
  - intros e He.
    destruct (web_procs w) as [H|(d&x&_&Hr&_)]; [exact H|congruence].
  - apply web_destiny.
Qed.

(** C8, as stated, fails where the routine raises before the spawn: with a
    link that leads nowhere in the way, and likewise without the application
    root, no child is spawned at all. *)
Lemma web_raising_run_spawns_no_child :
  (result (web stale_instance) = Raised FileExistsError
   /\ length (filter is_spawn (calls (web stale_instance))) = 0
   /\ ~ exists child,
          procs (after (web stale_instance))
          = procs stale_instance ++ [child])
  /\ (result (web empty_instance) = Raised FileNotFoundError
      /\ length (filter is_spawn (calls (web empty_instance))) = 0
      /\ ~ exists child,
             procs (after (web empty_instance))
             = procs empty_instance ++ [child]).
Proof.
  split; (split; [vm_compute; reflexivity|]);
    (split; [vm_compute; reflexivity|]);
    intros [child H]; vm_compute in H; discriminate H.
Qed.

Lemma web_effects_bounded_witness :
  exists child,
    procs (after (web fresh_instance)) = procs fresh_instance ++ [child].
Proof.
  apply (web_effects_bounded fresh_instance).
  vm_compute. reflexivity.
Defined.

(** ** Runs by the state of the expected path *)

Lemma web_run_present w d :
  resolve true "/root/app" w = inr (Found d Dir) ->
  exists_in "checkpoints" (with_cwd d w) = true ->
  web w
  = prepend (env_calls ++ [SysChdir "/root/app"; SysStat "checkpoints"])
      (launch (entered d (fs w) w)).
Proof.
  intros Hcd Hex.
  destruct (web_has_shape w) as [e Hn He|d' Hd Hx|d' n Hd Hx Hl|d' Hd Hx Hl];
    [exfalso; exact (Hn _ Hcd)|..];
    rewrite Hcd in Hd; injection Hd as <-; congruence.
Qed.

Lemma web_run_stale w d n :
  resolve true "/root/app" w = inr (Found d Dir) ->
  exists_in "checkpoints" (with_cwd d w) = false ->
  fs w !! (d ++ ["checkpoints"]) = Some n ->
  web w
  = Run (Raised FileExistsError) (entered d (fs w) w)
      (env_calls ++ [SysChdir "/root/app"; SysStat "checkpoints";
                     SysSymlink "/root/checkpoints" "checkpoints"]).
Proof.
  intros Hcd Hex Hlk.
  destruct (web_has_shape w) as [e Hn He|d' Hd Hx|d' n' Hd Hx Hl|d' Hd Hx Hl];
    [exfalso; exact (Hn _ Hcd)|..];
    rewrite Hcd in Hd; injection Hd as <-; congruence.
Qed.

Lemma web_run_linked w d :
  resolve true "/root/app" w = inr (Found d Dir) ->
  fs w !! (d ++ ["checkpoints"]) = None ->
  web w
  = prepend (env_calls ++ [SysChdir "/root/app"; SysStat "checkpoints";
                           SysSymlink "/root/checkpoints" "checkpoints"])
      (launch
         (entered d
            (<[d ++ ["checkpoints"] := Link "/root/checkpoints"]> (fs w)) w)).
Proof.
  intros Hcd Hlk.
  assert (Hex : exists_in "checkpoints" (with_cwd d w) = false).
  { unfold exists_in. rewrite resolve_checkpoints_follow.
    change (fs (with_cwd d w)) with (fs w).
    change (cwd (with_cwd d w)) with d.
    rewrite Hlk. reflexivity. }
  destruct (web_has_shape w) as [e Hn He|d' Hd Hx|d' n' Hd Hx Hl|d' Hd Hx Hl];
    [exfalso; exact (Hn _ Hcd)|..];
    rewrite Hcd in Hd; injection Hd as <-; congruence.
Qed.

(** ** Resolution under a new entry *)

(** A resolution that finds its object reads only entries that are there:
    an entry added where there was none does not change it. *)
Lemma walk_insert_found f follow p n fuel :
  f !! p = None ->
  forall rest cur q m,
    walk fuel f follow cur rest = inr (Found q m) ->
    walk fuel (<[p := n]> f) follow cur rest = inr (Found q m).
Proof.
  intros Hp.
  induction fuel as [|fuel IHf]; induction rest as [|c rest IHr];
    intros cur q m H; rewrite ?walk_nil in *; try exact H;
    rewrite walk_cons in H; rewrite walk_cons;
    repeat case_decide; auto;
    (destruct (f !! (cur ++ [c])) as [x|] eqn:E;
     [assert (p <> cur ++ [c]) as Hne by congruence;
      rewrite (lookup_insert_ne f p (cur ++ [c]) n Hne), E
     |destruct rest; discriminate H]);
    destruct x as [b| |t]; auto;
    destruct rest, follow; auto; discriminate H.
Qed.

Lemma resolve_insert_found follow path w p n q m :
  fs w !! p = None ->
  resolve follow path w = inr (Found q m) ->
  resolve follow path (with_fs (<[p := n]> (fs w)) w) = inr (Found q m).
Proof.
  unfold resolve. intros Hp H. case_decide; [discriminate H|].
  change (fs (with_fs (<[p:=n]> (fs w)) w)) with (<[p:=n]> (fs w)).
  change (cwd (with_fs (<[p:=n]> (fs w)) w)) with (cwd w).
  by apply walk_insert_found.
Qed.

(** ** What the search for the executable reads *)

Lemma exec_search_ext cands w w' :
  fs w = fs w' -> cwd w = cwd w' ->
  forall saved last,
    subprocess.exec_search cands saved last w
    = subprocess.exec_search cands saved last w'.
Proof.
  intros Hf Hc. induction cands as [|c cs IH]; intros saved last;
    [reflexivity|].
  change (subprocess.exec_search (c :: cs) saved last w) with
    (match subprocess.try_exec c w with
     | inr p => inr p
     | inl e =>
         subprocess.exec_search cs
           match saved with
           | Some _ => saved
           | None =>
               if decide (e = ENOENT \/ e = ENOTDIR) then None else Some e
           end e w
     end).
  change (subprocess.exec_search (c :: cs) saved last w') with
    (match subprocess.try_exec c w' with
     | inr p => inr p
     | inl e =>
         subprocess.exec_search cs
           match saved with
           | Some _ => saved
           | None =>
               if decide (e = ENOENT \/ e = ENOTDIR) then None else Some e
           end e w'
     end).
  unfold subprocess.try_exec. rewrite (resolve_ext true c w w' Hf Hc).
  destruct (resolve true c w') as [e|[p [[]| |]|p]]; auto.
Qed.

Lemma candidates_ext program w w' :
  environ w !! "PATH" = environ w' !! "PATH" ->
  subprocess.candidates program w = subprocess.candidates program w'.
Proof.
  intros He. unfold subprocess.candidates, subprocess.get_exec_path.
  rewrite He. reflexivity.
Qed.

Lemma assigned_PATH e : assigned e !! "PATH" = e !! "PATH".
Proof.
  apply assigned_other. intros H. absurd_call H.
Qed.

(** The outcome of the last statement depends on the search path, the
    working directory and the file system only. *)
Lemma launch_result_ext w w' :
  environ w !! "PATH" = environ w' !! "PATH" ->
  fs w = fs w' -> cwd w = cwd w' ->
  result (launch w) = result (launch w').
Proof.
  intros He Hf Hc. unfold launch.
  rewrite (candidates_ext "uvicorn" w w' He).
  rewrite (exec_search_ext _ w w' Hf Hc).
  destruct (subprocess.exec_search _ _ _ _); reflexivity.
Qed.

(** ** The guarded link *)

Lemma no_symlink_in_present_calls src dst :
  SysSymlink src dst
  ∉ env_calls ++ [SysChdir "/root/app"; SysStat "checkpoints";
                  SysSpawn server_cmd].
Proof.
  intros Hin. absurd_call Hin.
Qed.

(** A run that returns leaves a state on which the application root
    resolves as it did. *)
Lemma web_root_stable w d :
  resolve true "/root/app" w = inr (Found d Dir) ->
  resolve true "/root/app" (after (web w)) = inr (Found d Dir).
Proof.
  intros Hcd.
  destruct (web_fs w) as [Hf|(d'&Hd&Hn&Hf)].
  - rewrite (resolve_abs true "/root/app" (after (web w)) w eq_refl Hf).
    exact Hcd.
  - rewrite (resolve_abs true "/root/app" (after (web w))
               (with_fs (<[d' ++ ["checkpoints"]:=Link "/root/checkpoints"]>
                           (fs w)) w) eq_refl Hf).
    by apply resolve_insert_found.
Qed.

(** With the expected path existing, the step is skipped whole. *)
Lemma web_skips_existing w d :
  resolve true "/root/app" w = inr (Found d Dir) ->
  exists_in "checkpoints" (with_cwd d w) = true ->
  (forall src dst, SysSymlink src dst ∉ calls (web w))
  /\ fs (after (web w)) = fs w
  /\ result (web w) = result (launch (entered d (fs w) w)).
Proof.
  intros Hcd Hex. rewrite (web_run_present w d Hcd Hex).
  rewrite calls_prepend, calls_launch, after_prepend, result_prepend,
    launch_fs.
  split; [|split; reflexivity].
  intros src dst. rewrite <- app_assoc.
  apply no_symlink_in_present_calls.
Qed.

(** A run that returned did so from the last statement. *)
Lemma web_returned_from_launch w :
  result (web w) = Returned tt ->
  exists d f',
    resolve true "/root/app" w = inr (Found d Dir)
    /\ after (web w) = after (launch (entered d f' w))
    /\ result (launch (entered d f' w)) = Returned tt.
Proof.
  intros Hr.
  destruct (web_has_shape w) as [e Hn He|d Hd Hx|d n Hd Hx Hl|d Hd Hx Hl];
    rewrite ?result_prepend in Hr; try discriminate Hr;
    rewrite after_prepend; eauto.
Qed.

(** A run from a state that agrees with the state in which an earlier
    launch returned. *)
Lemma web_rerun w w1 d :
  resolve true "/root/app" w1 = inr (Found d Dir) ->
  cwd w1 = d ->
  environ w1 !! "PATH" = environ w !! "PATH" ->
  exists_in "checkpoints" w1 = true ->
  result (launch (entered d (fs w1) w)) = Returned tt ->
  result (web w1) = Returned tt
  /\ fs (after (web w1)) = fs w1
  /\ forall src dst, SysSymlink src dst ∉ calls (web w1).
Proof.
  intros Hcd1 Hc1 He1 Hex Hl.
  assert (Hex1 : exists_in "checkpoints" (with_cwd d w1) = true).
  { transitivity (exists_in "checkpoints" w1); [|exact Hex].
    apply exists_in_ext; [reflexivity|]. symmetry. exact Hc1. }
  destruct (web_skips_existing w1 d Hcd1 Hex1) as (Hno&Hfs&Hres).
  split; [|split; assumption].
  rewrite Hres, <- Hl. apply launch_result_ext; [|reflexivity..].
  unfold entered. cbn [environ]. rewrite !assigned_PATH. exact He1.
Qed.

(** The second of two runs. *)
Lemma web_second_run w :
  result (web w) = Returned tt ->
  exists_in "checkpoints" (after (web w)) = true ->
  result (web (after (web w))) = Returned tt
  /\ fs (after (web (after (web w)))) = fs (after (web w))
  /\ forall src dst, SysSymlink src dst ∉ calls (web (after (web w))).
Proof.
  intros Hr Hex.
  destruct (web_returned_from_launch w Hr) as (d&f'&Hcd&Haft&Hl).
  apply (web_rerun w (after (web w)) d).
  - exact (web_root_stable w d Hcd).
  - rewrite Haft. apply launch_cwd.
  - rewrite web_environ. apply assigned_PATH.
  - exact Hex.
  - rewrite Haft, launch_fs. exact Hl.
Qed.

(** A symlink call follows a negative existence check. *)
Lemma web_symlink_after_absent w src dst :
  SysSymlink src dst ∈ calls (web w) ->
  exists d,
    resolve true "/root/app" w = inr (Found d Dir)
    /\ exists_in "checkpoints" (with_cwd d w) = false.
Proof.
  intros Hin.
  destruct (web_has_shape w) as [e Hn He|d Hd Hx|d n Hd Hx Hl|d Hd Hx Hl];
    rewrite ?calls_prepend, ?calls_launch in Hin; eauto.
  - exfalso. absurd_call Hin.
  - exfalso. rewrite <- app_assoc in Hin.
    by apply no_symlink_in_present_calls in Hin.
Qed.

(** What the guard does achieve, read with the code's own check: when
    [os.path.exists] says yes, [web] makes no symlink call and leaves the
    file system as it is, and if the run raises, it is the spawn that
    raised.  On the state a run that returned has left, provided the check
    says yes there, a second run returns as well, without a symlink call
    and without a change to the file system.  A symlink call is made only
    when the check has said no, and a link is made only where no entry
    was. *)
Lemma web_guard_when_check_passes :
  (forall w d,
     resolve true "/root/app" w = inr (Found d Dir) ->
     exists_in "checkpoints" (with_cwd d w) = true ->
     (forall src dst, SysSymlink src dst ∉ calls (web w))
     /\ fs (after (web w)) = fs w
     /\ result (web w) = result (launch (entered d (fs w) w)))
  /\ (forall w,
        result (web w) = Returned tt ->
        exists_in "checkpoints" (after (web w)) = true ->
        result (web (after (web w))) = Returned tt
        /\ fs (after (web (after (web w)))) = fs (after (web w))
        /\ forall src dst, SysSymlink src dst ∉ calls (web (after (web w))))
  /\ (forall w src dst,
        SysSymlink src dst ∈ calls (web w) ->
        exists d,
          resolve true "/root/app" w = inr (Found d Dir)
          /\ exists_in "checkpoints" (with_cwd d w) = false)
  /\ (forall w,
        fs (after (web w)) <> fs w ->
        exists d,
          resolve true "/root/app" w = inr (Found d Dir)
          /\ fs w !! (d ++ ["checkpoints"]) = None).
Proof.
  split; [exact web_skips_existing|].
  split; [exact web_second_run|].
  split; [exact web_symlink_after_absent|].
  intros w Hne. destruct (web_fs w) as [Hf|(d&Hd&Hn&Hf)]; [contradiction|].
  eauto.
Qed.


(** ** A missing link source *)

(** C4, as stated, fails: on an instance without [/root/checkpoints] the
    routine makes the link all the same, returns, and the server is
    spawned. *)
Lemma web_spawns_without_link_source :
  exists_in "/root/checkpoints" bare_instance = false
  /\ result (web bare_instance) = Returned tt
  /\ fs (after (web bare_instance)) !! ["root"; "app"; "checkpoints"]
     = Some (Link "/root/checkpoints")
  /\ length (filter is_spawn (calls (web bare_instance))) = 1.
Proof. repeat split; vm_compute; reflexivity. Qed.

(** C4, as the code has it.  [os.symlink] does not look at its source: with
    [/root/checkpoints] missing, the application root resolving to a
    directory and no entry named [checkpoints] in that directory, the link
    is made, the routine goes on to the spawn, and its outcome is the
    outcome of the spawn. *)
Theorem web_link_source_not_checked (w : world) (d : list string) :
  resolve true "/root/app" w = inr (Found d Dir) ->
  exists_in "/root/checkpoints" w = false ->
  fs w !! (d ++ ["checkpoints"]) = None ->
  calls (web w)
  = env_calls ++ [SysChdir "/root/app"; SysStat "checkpoints";
                  SysSymlink "/root/checkpoints" "checkpoints";
                  SysSpawn server_cmd]
  /\ fs (after (web w))
     = <[d ++ ["checkpoints"] := Link "/root/checkpoints"]> (fs w)
  /\ result (web w)
     = result
         (launch
            (entered d
               (<[d ++ ["checkpoints"] := Link "/root/checkpoints"]> (fs w))
               w)).
Proof.
  intros Hcd _ Hl. rewrite (web_run_linked w d Hcd Hl).
  rewrite calls_prepend, calls_launch, after_prepend, result_prepend,
    launch_fs, <- app_assoc.
  repeat split.
Qed.

Lemma web_link_source_not_checked_witness :
  calls (web bare_instance)
  = env_calls ++ [SysChdir "/root/app"; SysStat "checkpoints";
                  SysSymlink "/root/checkpoints" "checkpoints";
                  SysSpawn server_cmd]
  /\ fs (after (web bare_instance))
     = <[["root"; "app"] ++ ["checkpoints"] := Link "/root/checkpoints"]>
         (fs bare_instance)
  /\ result (web bare_instance)
     = result
         (launch
            (entered ["root"; "app"]
               (<[["root"; "app"] ++ ["checkpoints"]
                  := Link "/root/checkpoints"]> (fs bare_instance))
               bare_instance)).
Proof.
  apply (web_link_source_not_checked bare_instance ["root"; "app"]);
    vm_compute; reflexivity.
Defined.

(** ** A link that leads nowhere *)

(** C9. When the entry at the expected path is a symbolic link whose target
    leads to nothing, the existence check says no, [os.symlink] raises
    [FileExistsError] on the entry in its way, and the routine ends there:
    nothing is spawned and the file system is as it was. *)
Theorem web_dangling_link_raises (w : world) (d : list string) (t : string) :
  resolve true "/root/app" w = inr (Found d Dir) ->
  fs w !! (d ++ ["checkpoints"]) = Some (Link t) ->
  dangling (fs w) d t ->
  exists_in "checkpoints" (with_cwd d w) = false
  /\ web w
     = Run (Raised FileExistsError) (entered d (fs w) w)
         (env_calls ++ [SysChdir "/root/app"; SysStat "checkpoints";
                        SysSymlink "/root/checkpoints" "checkpoints"])
  /\ (forall args, SysSpawn args ∉ calls (web w))
  /\ procs (after (web w)) = procs w
  /\ fs (after (web w)) = fs w.
Proof.
  intros Hcd Hl Hd.
  assert (Hex : exists_in "checkpoints" (with_cwd d w) = false).
  { unfold exists_in. rewrite resolve_checkpoints_follow.
    change (fs (with_cwd d w)) with (fs w).
    change (cwd (with_cwd d w)) with d.
    rewrite Hl.
    destruct (walk _ _ _ _ _) as [e|[q n|q]] eqn:E; try reflexivity.
    exfalso. exact (Hd _ _ _ E). }
  split; [exact Hex|].
  rewrite (web_run_stale w d (Link t) Hcd Hex Hl).
  split; [reflexivity|]. split; [|split; reflexivity].
  intros args Hin. absurd_call Hin.
Qed.

Lemma web_dangling_link_raises_witness :
  exists_in "checkpoints" (with_cwd ["root"; "app"] stale_instance) = false
  /\ web stale_instance
     = Run (Raised FileExistsError)
         (entered ["root"; "app"] (fs stale_instance) stale_instance)
         (env_calls ++ [SysChdir "/root/app"; SysStat "checkpoints";
                        SysSymlink "/root/checkpoints" "checkpoints"])
  /\ (forall args, SysSpawn args ∉ calls (web stale_instance))
  /\ procs (after (web stale_instance)) = procs stale_instance
  /\ fs (after (web stale_instance)) = fs stale_instance.
Proof.
  apply (web_dangling_link_raises stale_instance ["root"; "app"]
           "/root/checkpoints").
  - vm_compute. reflexivity.
  - vm_compute. reflexivity.
  - intros [|fuel] q n; vm_compute; discriminate.
Defined.

(** On the instance without the checkpoint directory the first run returns
    and the second raises: the link of the first is the entry in the way of
    the second. *)
Example web_rerun_on_bare_instance :
  result (web bare_instance) = Returned tt
  /\ result (web (after (web bare_instance))) = Raised FileExistsError
  /\ length (procs (after (web (after (web bare_instance))))) = 1.
Proof. repeat split; vm_compute; reflexivity. Qed.

(** A separator at the end of a link's target asks for a directory.  A
    link to [release_server.py/] leads nowhere, where a link to
    [release_server.py] leads to the file: the existence check says no, and
    the routine raises at the symlink call. *)
Example trailing_separator_asks_for_directory :
  exists_in "checkpoints" (linked_instance "release_server.py") = true
  /\ resolve true "checkpoints" (linked_instance "release_server.py/")
     = inl ENOTDIR
  /\ exists_in "checkpoints" (linked_instance "release_server.py/") = false
  /\ exists_in "checkpoints" (linked_instance "/root/checkpoints/") = true
  /\ result (web (linked_instance "release_server.py/"))
     = Raised FileExistsError
  /\ result (web (linked_instance "release_server.py")) = Returned tt.
Proof. repeat split; vm_compute; reflexivity. Qed.

(** ** Two runs from one file system *)

Lemma web_run_no_root w e :
  (forall d, resolve true "/root/app" w <> inr (Found d Dir)) ->
  result (chdir "/root/app" w) = Raised e ->
  web w
  = Run (Raised e) (with_environ (assigned (environ w)) w)
      (env_calls ++ [SysChdir "/root/app"]).
Proof.
  intros Hn He.
  destruct (web_has_shape w) as [e' Hn' He'|d Hd Hx|d n Hd Hx Hl|d Hd Hx Hl];
    try (exfalso; exact (Hn _ Hd)).
  congruence.
Qed.

(** C7. [web] takes nothing but the world it runs in, and of that world
    only the file system decides what it does: two runs from worlds with
    the same file system make the same calls in the same order (the same
    assignments, the same change of directory, the same check and the same
    decision on the link, the same command spawned), leave the same file
    system, either move to the same directory or both stay where they were,
    and leave the four variables at the same values.  Their outcomes agree
    as soon as the search path for the executable agrees too. *)
Theorem web_deterministic (w1 w2 : world) :
  fs w1 = fs w2 ->
  calls (web w1) = calls (web w2)
  /\ fs (after (web w1)) = fs (after (web w2))
  /\ (cwd (after (web w1)) = cwd (after (web w2))
      \/ (cwd (after (web w1)) = cwd w1 /\ cwd (after (web w2)) = cwd w2))
  /\ populated (environ (after (web w1)))
  /\ populated (environ (after (web w2)))
  /\ (environ w1 !! "PATH" = environ w2 !! "PATH" ->
      result (web w1) = result (web w2)).
Proof.
  intros Hf.
  assert (Hr : resolve true "/root/app" w1 = resolve true "/root/app" w2)
    by (apply resolve_abs; [reflexivity|exact Hf]).
  assert (Hx : forall d,
             exists_in "checkpoints" (with_cwd d w1)
             = exists_in "checkpoints" (with_cwd d w2))
    by (intros d; apply exists_in_ext; [exact Hf|reflexivity]).
  assert (Hc : result (chdir "/root/app" w1) = result (chdir "/root/app" w2)).
  { unfold chdir. rewrite Hr.
    destruct (resolve true "/root/app" w2) as [e|[p [x| |t]|p]]; reflexivity. }
  assert (Hl : forall d f,
             environ w1 !! "PATH" = environ w2 !! "PATH" ->
             result (launch (entered d f w1))
             = result (launch (entered d f w2))).
  { intros d f He. apply launch_result_ext; [|reflexivity..].
    unfold entered. cbn [environ]. rewrite !assigned_PATH. exact He. }
  split; [|split; [|split; [|split; [|split]]]];
    try (rewrite web_environ; apply assigned_populated).
  - destruct (web_has_shape w1) as [e Hn He|d Hd Hx1|d n Hd Hx1 Hk|d Hd Hx1 Hk].
    + rewrite (web_run_no_root w2 e); [reflexivity| |congruence].
      intros d. rewrite <- Hr. apply Hn.
    + rewrite (web_run_present w2 d); [|congruence..].
      rewrite !calls_prepend, !calls_launch. reflexivity.
    + rewrite (web_run_stale w2 d n); [reflexivity|congruence..].
    + rewrite (web_run_linked w2 d); [|congruence..].
      rewrite !calls_prepend, !calls_launch. reflexivity.
  - destruct (web_has_shape w1) as [e Hn He|d Hd Hx1|d n Hd Hx1 Hk|d Hd Hx1 Hk].
    + rewrite (web_run_no_root w2 e); [exact Hf| |congruence].
      intros d. rewrite <- Hr. apply Hn.
    + rewrite (web_run_present w2 d); [|congruence..].
      rewrite !after_prepend, !launch_fs. exact Hf.
    + rewrite (web_run_stale w2 d n); [exact Hf|congruence..].
    + rewrite (web_run_linked w2 d); [|congruence..].
      rewrite !after_prepend, !launch_fs. cbn [entered fs]. congruence.
  - destruct (web_has_shape w1) as [e Hn He|d Hd Hx1|d n Hd Hx1 Hk|d Hd Hx1 Hk].
    + rewrite (web_run_no_root w2 e); [right; split; reflexivity| |congruence].
      intros d. rewrite <- Hr. apply Hn.
    + rewrite (web_run_present w2 d); [|congruence..].
      rewrite !after_prepend, !launch_cwd. left. reflexivity.
    + rewrite (web_run_stale w2 d n); [left; reflexivity|congruence..].
    + rewrite (web_run_linked w2 d); [|congruence..].
      rewrite !after_prepend, !launch_cwd. left. reflexivity.
  - intros He.
    destruct (web_has_shape w1) as [e Hn He1|d Hd Hx1|d n Hd Hx1 Hk|d Hd Hx1 Hk].
    + rewrite (web_run_no_root w2 e); [reflexivity| |congruence].
      intros d. rewrite <- Hr. apply Hn.
    + rewrite (web_run_present w2 d); [|congruence..].
      rewrite !result_prepend, Hf. apply Hl, He.
    + rewrite (web_run_stale w2 d n); [reflexivity|congruence..].
    + rewrite (web_run_linked w2 d); [|congruence..].
      rewrite !result_prepend, Hf. apply Hl, He.
Qed.

Lemma web_deterministic_witness :
  calls (web fresh_instance) = calls (web other_instance)
  /\ fs (after (web fresh_instance)) = fs (after (web other_instance))
  /\ (cwd (after (web fresh_instance)) = cwd (after (web other_instance))
      \/ (cwd (after (web fresh_instance)) = cwd fresh_instance
          /\ cwd (after (web other_instance)) = cwd other_instance))
  /\ populated (environ (after (web fresh_instance)))
  /\ populated (environ (after (web other_instance)))
  /\ (environ fresh_instance !! "PATH" = environ other_instance !! "PATH" ->
      result (web fresh_instance) = result (web other_instance)).
Proof.
  apply (web_deterministic fresh_instance other_instance).
  reflexivity.
Defined.

(** The outcomes of the two sample runs do differ: the search path is the
    one thing besides the file system that the last statement reads. *)
Lemma web_outcome_reads_search_path :
  result (web fresh_instance) = Returned tt
  /\ result (web other_instance) = Raised FileNotFoundError.
Proof. split; vm_compute; reflexivity. Qed.

(** ** The order of the build steps *)

(** C6. The steps of [image] that belong to a phase of the ordering policy
    come in the order of the policy: the base image first, the system
    packages, the locked dependencies, the native extension, the three
    downloads, the snapshot of the local source last.  The extension is
    built after both the toolkit and the dependencies are there. *)
Theorem image_obeys_ordering :
  omap phase_of image
  = [Base; SystemPackages; LockedDependencies; NativeExtension;
     Download; Download; Download; Snapshot]
  /\ Sorted le (map phase_rank (omap phase_of image))
  /\ head image
     = Some (FromRegistry "nvidia/cuda:12.8.1-devel-ubuntu22.04" (Some "3.11"))
  /\ last image
     = Some (AddLocalDir "." "/root/app" true
               ["__pycache__"; ".git"; "*.pyc"; "outputs"; "wan_models";
                "checkpoints"; ".venv"; "uv.lock"; "*.lock"])
  /\ (exists i j k,
        i < k /\ j < k
        /\ (exists tag py, image !! i = Some (FromRegistry tag py))
        /\ image !! j = Some (UvSync "." true (Some "b200"))
        /\ image !! k
           = Some (PipInstall ["flash-attn"] "--no-build-isolation"
                     (Some "b200"))
        /\ forall n s,
             image !! n = Some s -> phase_of s = Some Download -> k < n).
Proof.
  assert (H : omap phase_of image
              = [Base; SystemPackages; LockedDependencies; NativeExtension;
                 Download; Download; Download; Snapshot])
    by (vm_compute; reflexivity).
  split; [exact H|]. split; [|split; [|split]].
  - rewrite H. simpl. repeat constructor.
  - vm_compute. reflexivity.
  - vm_compute. reflexivity.
  - exists 0, 3, 5. repeat split; try lia.
    + eexists _, _. vm_compute. reflexivity.
    + intros n s Hn Hs.
      do 11 (destruct n as [|n]; [vm_compute in Hn; injection Hn as <-;
                                  try discriminate Hs; try lia|]).
      vm_compute in Hn. discriminate Hn.
Qed.

(** The three downloads write below [/root/wan_models] and to
    [/root/checkpoints], none of them below [/root/app]. *)
Example download_directories :
  Forall (fun c => is_download c = true) (run_commands_of image)
  /\ omap local_dir (run_commands_of image)
     = ["/root/wan_models/Wan2.1-T2V-1.3B"; "/root/wan_models/Wan2.1-T2V-14B";
        "/root/checkpoints"].
Proof. split; [repeat constructor|vm_compute; reflexivity]. Qed.

(** ** Ignore patterns *)

Lemma glob_from_star re pat s :
  glob_from re (String "*" pat) s
  = glob_from true pat s
    || match s with
       | EmptyString => false
       | String d s' =>
           negb (Ascii.eqb d "/") && glob_from re (String "*" pat) s'
       end.
Proof. destruct s; reflexivity. Qed.

Lemma glob_star pat s :
  glob (String "*" pat) s
  = glob_from true pat s
    || match s with
       | EmptyString => false
       | String d s' => negb (Ascii.eqb d "/") && glob (String "*" pat) s'
       end.
Proof. apply glob_from_star. Qed.

(** [*suffix] matches every name made of a run without separator and a
    text the suffix matches. *)
Lemma glob_star_suffix pat stem tail :
  contains_char "/" stem = false ->
  glob_from true pat tail = true ->
  glob (String "*" pat) (stem +:+ tail) = true.
Proof.
  intros Hs Hp. induction stem as [|c stem IH].
  - change ("" +:+ tail) with tail. rewrite glob_star, Hp. reflexivity.
  - change (String c stem +:+ tail) with (String c (stem +:+ tail)).
    rewrite glob_star.
    change (contains_char "/" (String c stem))
      with (Ascii.eqb "/" c || contains_char "/" stem) in Hs.
    apply orb_false_elim in Hs as [Hc Hs].
    rewrite Ascii.eqb_sym, Hc, (IH Hs). apply orb_true_r.
Qed.

Lemma parse_pattern_inclusion s :
  exclusion (parse_pattern s) = false -> parse_pattern s = Pattern false s.
Proof.
  destruct s as [|c s]; [reflexivity|]. unfold parse_pattern.
  destruct (Ascii.eqb_spec c "!") as [->|Hc]; [discriminate|].
  intros _.
  destruct c as [[] [] [] [] [] [] [] []]; try reflexivity.
  contradiction Hc. reflexivity.
Qed.

(** With no exclusion among the patterns, a file is matched as soon as one
    pattern hits it. *)
Lemma matches_inclusions pats rel :
  rel <> [] ->
  Forall (fun p => exclusion p = false) pats ->
  matches pats rel
  = existsb (fun p => pattern_hits (cleaned_pattern p) rel) pats.
Proof.
  intros Hrel Hall. unfold matches.
  destruct rel as [|x rel]; [contradiction|].
  set (r := x :: rel) in *. clearbody r.
  enough (forall b,
            fold_left
              (fun matched p =>
                 if Bool.eqb (exclusion p) matched
                 then if pattern_hits (cleaned_pattern p) r
                      then negb (exclusion p) else matched
                 else matched) pats b
            = b || existsb (fun p => pattern_hits (cleaned_pattern p) r) pats)
    as H by apply (H false).
  induction Hall as [|p pats Hp Hall IH]; intros b.
  - simpl. rewrite orb_false_r. reflexivity.
  - cbn [fold_left existsb]. rewrite IH, Hp.
    destruct b, (pattern_hits (cleaned_pattern p) r); reflexivity.
Qed.

(** A pattern that matches the first name of a path hits the path. *)
Lemma pattern_hits_head pat name rest :
  glob pat name = true -> pattern_hits pat (name :: rest) = true.
Proof.
  intros H. unfold pattern_hits. cbn [prefixes existsb join_with].
  rewrite H. reflexivity.
Qed.

Lemma ignored_by_pattern ign pat name rest :
  Forall (fun s => exclusion (parse_pattern s) = false) ign ->
  pat ∈ ign ->
  glob pat name = true ->
  ignored ign (name :: rest) = true.
Proof.
  intros Hall Hin Hg. unfold ignored.
  rewrite matches_inclusions; [|discriminate|].
  - apply existsb_exists. exists (parse_pattern pat). split.
    + apply in_map, list_elem_of_In, Hin.
    + rewrite Forall_forall in Hall.
      rewrite (parse_pattern_inclusion pat (Hall pat Hin)).
      by apply pattern_hits_head.
  - apply Forall_forall. intros p Hp.
    apply list_elem_of_fmap in Hp as (s&->&Hs).
    rewrite Forall_forall in Hall. exact (Hall s Hs).
Qed.

(** ** What a snapshot writes *)

(** [mkdirs] changes the file system only at the directories it makes:
    paths below [cur] along [rest] that had no entry. *)
Lemma mkdirs_changes (rest : list string) :
  forall (cur : list string) (f : filesystem) (k : list string),
    mkdirs cur rest f !! k <> f !! k ->
    exists pre suf,
      pre <> [] /\ rest = pre ++ suf /\ k = cur ++ pre
      /\ f !! k = None /\ mkdirs cur rest f !! k = Some Dir.
Proof.
  induction rest as [|c rest IH]; intros cur f k Hne; [contradiction|].
  cbn [mkdirs] in *.
  set (f' := match f !! (cur ++ [c]) with
             | Some _ => f
             | None => <[cur ++ [c]:=Dir]> f
             end) in *.
  destruct (decide (mkdirs (cur ++ [c]) rest f' !! k = f' !! k)) as [He|Hd].
  - assert (Hk : f' !! k <> f !! k) by congruence.
    subst f'. destruct (f !! (cur ++ [c])) as [n|] eqn:E; [contradiction|].
    destruct (decide (cur ++ [c] = k)) as [<-|Hk'].
    + exists [c], rest. rewrite He, lookup_insert_eq. by repeat split.
    + by rewrite lookup_insert_ne in Hk.
  - destruct (IH _ _ _ Hd) as (pre&suf&Hp&->&->&Hn&Hm).
    exists (c :: pre), suf. rewrite <- app_assoc in *.
    repeat split; try done.
    subst f'. destruct (f !! (cur ++ [c])) as [n|] eqn:E; [exact Hn|].
    rewrite lookup_insert_ne in Hn; [exact Hn|].
    intros Heq. apply app_inv_head in Heq. destruct pre; [done|discriminate].
Qed.

Section Snapshot.

Variables (ign remote : list string) (tree : list (list string * node)).

(** Copying one file changes only paths below the remote directory, along
    the path of the file. *)
Lemma copy_entry_changes (f : filesystem) (e : list string * node)
    (k : list string) :
  copy_entry remote f e !! k <> f !! k ->
  exists pre, pre <> [] /\ pre `prefix_of` e.1 /\ k = remote ++ pre.
Proof.
  unfold copy_entry. destruct e as [rel n]. cbn [fst snd].
  destruct rel as [|x rel]; [contradiction|].
  destruct n as [b| |t]; [|contradiction..].
  set (r := x :: rel). intros Hne.
  destruct (decide (remote ++ r = k)) as [<-|Hk].
  - exists r. repeat split; done.
  - rewrite lookup_insert_ne in Hne by exact Hk.
    destruct (mkdirs_changes _ _ _ _ Hne) as (pre&suf&Hp&Hr&->&_).
    exists pre. repeat split; [exact Hp|].
    exists (suf ++ [List.last r x]).
    rewrite app_assoc, <- Hr. apply app_removelast_last. discriminate.
Qed.

Lemma copy_entries_changes (entries : list (list string * node)) :
  forall (f : filesystem) k,
    fold_left (copy_entry remote) entries f !! k <> f !! k ->
    exists e pre,
      e ∈ entries /\ pre <> [] /\ pre `prefix_of` e.1 /\ k = remote ++ pre.
Proof.
  induction entries as [|e entries IH]; intros f k Hne; [contradiction|].
  cbn [fold_left] in Hne.
  destruct (decide (fold_left (copy_entry remote) entries
                      (copy_entry remote f e) !! k
                    = copy_entry remote f e !! k)) as [He|Hd].
  - rewrite He in Hne.
    destruct (copy_entry_changes _ _ _ Hne) as (pre&Hp&Hpre&Hk).
    exists e, pre. repeat split; try done. constructor.
  - destruct (IH _ _ Hd) as (e'&pre&Hin&Hp&Hpre&Hk).
    exists e', pre. repeat split; try done. by constructor.
Qed.

(** A snapshot changes a path only in two ways: it writes below the remote
    directory, along the path of a file that is not ignored, or it makes a
    directory on the way to the remote directory where there was none. *)
Lemma copy_tree_changes (f : filesystem) (k : list string) :
  copy_tree ign remote tree f !! k <> f !! k ->
  (exists e pre,
      e ∈ tree /\ ignored ign e.1 = false
      /\ pre <> [] /\ pre `prefix_of` e.1 /\ k = remote ++ pre)
  \/ (k `prefix_of` remote /\ k <> [] /\ f !! k = None
      /\ copy_tree ign remote tree f !! k = Some Dir).
Proof.
  unfold copy_tree. intros Hne.
  set (kept := filter (fun e => ignored ign e.1 = false) tree) in *.
  destruct (decide (fold_left (copy_entry remote) kept (mkdirs [] remote f) !! k
                    = mkdirs [] remote f !! k)) as [He|Hd].
  - right. rewrite He in *.
    destruct (mkdirs_changes _ _ _ _ Hne) as (pre&suf&Hp&->&->&Hn&Hm).
    repeat split; try done. by exists suf.
  - left. destruct (copy_entries_changes _ _ _ Hd) as (e&pre&Hin&Hp&Hpre&Hk).
    apply list_elem_of_filter in Hin as [Hi Hin].
    exists e, pre. by repeat split.
Qed.

(** Nothing is written at or below an entry of the remote directory whose
    name the patterns exclude with everything under it. *)
Lemma copy_tree_excluded (f : filesystem) (name : string)
    (q : list string) :
  (forall rest, ignored ign (name :: rest) = true) ->
  copy_tree ign remote tree f !! (remote ++ name :: q)
  = f !! (remote ++ name :: q).
Proof.
  intros Hign.
  destruct (decide (copy_tree ign remote tree f !! (remote ++ name :: q)
                    = f !! (remote ++ name :: q))) as [He|Hne]; [exact He|].
  exfalso.
  destruct (copy_tree_changes _ _ Hne)
    as [(e&pre&Hin&Hi&Hp&[suf Hpre]&Hk)|([suf Hpre]&_)].
  - apply app_inv_head in Hk. subst pre.
    rewrite Hpre in Hi. cbn [List.app] in Hi. rewrite Hign in Hi.
    discriminate Hi.
  - apply (f_equal length) in Hpre. rewrite !length_app in Hpre.
    cbn [length] in Hpre. lia.
Qed.

End Snapshot.

(** ** The snapshot and the link *)

Lemma resolve_app_root w :
  fs w !! ["root"] = Some Dir ->
  fs w !! ["root"; "app"] = Some Dir ->
  resolve true "/root/app" w = inr (Found ["root"; "app"] Dir).
Proof.
  intros H1 H2. unfold resolve. rewrite decide_False by discriminate.
  change (posixpath.isabs "/root/app") with true.
  change (posixpath.components "/root/app") with ["root"; "app"].
  cbv iota. rewrite walk_cons.
  rewrite decide_False by discriminate. rewrite decide_False by discriminate.
  change ([] ++ ["root"]) with ["root"]. rewrite H1.
  rewrite walk_cons.
  rewrite decide_False by discriminate. rewrite decide_False by discriminate.
  change (["root"] ++ ["app"]) with ["root"; "app"]. rewrite H2.
  apply walk_nil.
Qed.

Lemma image_ignore_inclusions :
  Forall (fun s => exclusion (parse_pattern s) = false)
    ["__pycache__"; ".git"; "*.pyc"; "outputs"; "wan_models";
     "checkpoints"; ".venv"; "uv.lock"; "*.lock"].
Proof. repeat constructor. Qed.

Lemma image_ignores_names name rest :
  name ∈ excluded_names ->
  ignored
    ["__pycache__"; ".git"; "*.pyc"; "outputs"; "wan_models";
     "checkpoints"; ".venv"; "uv.lock"; "*.lock"] (name :: rest) = true.
Proof.
  intros Hin. apply (ignored_by_pattern _ name).
  - exact image_ignore_inclusions.
  - unfold excluded_names in Hin.
    repeat (apply elem_of_cons in Hin as [->|Hin];
            [by_evaluation|]).
    by apply elem_of_nil in Hin.
  - unfold excluded_names in Hin.
    repeat (apply elem_of_cons in Hin as [->|Hin];
            [vm_compute; reflexivity|]).
    by apply elem_of_nil in Hin.
Qed.

Lemma image_ignores_suffixes stem rest :
  contains_char "/" stem = false ->
  ignored
    ["__pycache__"; ".git"; "*.pyc"; "outputs"; "wan_models";
     "checkpoints"; ".venv"; "uv.lock"; "*.lock"]
    ((stem +:+ ".lock") :: rest) = true
  /\ ignored
       ["__pycache__"; ".git"; "*.pyc"; "outputs"; "wan_models";
        "checkpoints"; ".venv"; "uv.lock"; "*.lock"]
       ((stem +:+ ".pyc") :: rest) = true.
Proof.
  intros Hs. split.
  - apply (ignored_by_pattern _ "*.lock").
    + exact image_ignore_inclusions.
    + by_evaluation.
    + apply glob_star_suffix; [exact Hs|reflexivity].
  - apply (ignored_by_pattern _ "*.pyc").
    + exact image_ignore_inclusions.
    + by_evaluation.
    + apply glob_star_suffix; [exact Hs|reflexivity].
Qed.

(** Where the link is missing under an application root that is a plain
    directory, [web] makes it. *)
Lemma web_links_fresh_root w :
  fs w !! ["root"] = Some Dir ->
  fs w !! ["root"; "app"] = Some Dir ->
  fs w !! ["root"; "app"; "checkpoints"] = None ->
  SysSymlink "/root/checkpoints" "checkpoints" ∈ calls (web w)
  /\ fs (after (web w)) !! ["root"; "app"; "checkpoints"]
     = Some (Link "/root/checkpoints").
Proof.
  intros H1 H2 H3.
  assert (Hcd := resolve_app_root w H1 H2).
  rewrite (web_run_linked w ["root"; "app"] Hcd H3).
  rewrite calls_prepend, calls_launch, after_prepend, launch_fs.
  split.
  - by_evaluation.
  - unfold entered. cbn [fs].
    exact (lookup_insert_eq (fs w) ["root"; "app"; "checkpoints"]
             (Link "/root/checkpoints")).
Qed.

(** The snapshot makes the remote directory. *)
Lemma copy_tree_makes_app_root (ign : list string)
    (tree : list (list string * node)) (base : filesystem) :
  base !! ["root"] = Some Dir ->
  base !! ["root"; "app"] = None ->
  copy_tree ign ["root"; "app"] tree base !! ["root"; "app"] = Some Dir.
Proof.
  intros Hroot Happ. unfold copy_tree.
  match goal with |- fold_left ?c ?l ?f0 !! ?k = _ =>
    destruct (decide (fold_left c l f0 !! k = f0 !! k)) as [He|Hne] end.
  - rewrite He. cbn [mkdirs List.app]. rewrite Hroot, Happ. cbn [mkdirs].
    apply lookup_insert_eq.
  - exfalso.
    destruct (copy_entries_changes _ _ _ _ Hne) as (e&pre&_&Hp&_&Hk).
    rewrite <- (app_nil_r ["root"; "app"]) in Hk at 1.
    apply app_inv_head in Hk. congruence.
Qed.

(** C10. The last step of [image] copies the local directory into
    [/root/app] and excludes, with everything under them, the entries named
    [checkpoints], [wan_models], [outputs], [__pycache__], [.git], [.venv]
    and [uv.lock], and the files whose names end in [.lock] or [.pyc].
    Whatever the local directory holds, the step changes the image only at
    or below [/root/app] (making [/root] when it is missing), so nothing at
    or below [/root/wan_models] and [/root/checkpoints] is touched.  When
    the layers below have left nothing at or below [/root/app], the path
    [/root/app/checkpoints] is absent after the step, and [web], run on
    that file system, makes the link there, with the target the checkpoint
    was downloaded to. *)
Theorem snapshot_spares_artifacts (s : step)
    (tree : list (list string * node)) (base : filesystem) :
  last image = Some s ->
  (exists ign,
      s = AddLocalDir "." "/root/app" true ign
      /\ (forall name rest,
            name ∈ excluded_names -> ignored ign (name :: rest) = true)
      /\ (forall stem rest,
            contains_char "/" stem = false ->
            ignored ign ((stem +:+ ".lock") :: rest) = true
            /\ ignored ign ((stem +:+ ".pyc") :: rest) = true))
  /\ (forall k,
        snapshot s tree base !! k <> base !! k ->
        ["root"; "app"] `prefix_of` k \/ (k = ["root"] /\ base !! k = None))
  /\ (forall name q,
        name ∈ excluded_names ->
        snapshot s tree base !! (["root"; "app"] ++ name :: q)
        = base !! (["root"; "app"] ++ name :: q))
  /\ (forall k,
        ["root"; "wan_models"] `prefix_of` k
        \/ ["root"; "checkpoints"] `prefix_of` k ->
        snapshot s tree base !! k = base !! k)
  /\ (base !! ["root"] = Some Dir ->
      (forall q, base !! (["root"; "app"] ++ q) = None) ->
      snapshot s tree base !! ["root"; "app"; "checkpoints"] = None
      /\ forall w,
           fs w = snapshot s tree base ->
           SysSymlink "/root/checkpoints" "checkpoints" ∈ calls (web w)
           /\ fs (after (web w)) !! ["root"; "app"; "checkpoints"]
              = Some (Link "/root/checkpoints"))
  /\ (exists command gpu,
        RunCommands [command] gpu ∈ image
        /\ is_download command = true
        /\ local_dir command = Some "/root/checkpoints").
Proof.
  intros Hs. vm_compute in Hs. injection Hs as <-.
  set (ign := ["__pycache__"; ".git"; "*.pyc"; "outputs"; "wan_models";
               "checkpoints"; ".venv"; "uv.lock"; "*.lock"]).
  assert (Hsnap : snapshot (AddLocalDir "." "/root/app" true ign) tree base
                  = copy_tree ign ["root"; "app"] tree base).
  { unfold snapshot.
    replace (posixpath.components "/root/app") with ["root"; "app"]
      by (vm_compute; reflexivity).
    reflexivity. }
  rewrite Hsnap. clear Hsnap.
  set (built := copy_tree ign ["root"; "app"] tree base).
  assert (Hch : forall k,
             built !! k <> base !! k ->
             ["root"; "app"] `prefix_of` k
             \/ (k = ["root"] /\ base !! k = None)).
  { intros k Hne.
    destruct (copy_tree_changes _ _ _ _ _ Hne)
      as [(e&pre&_&_&_&_&->)|([suf Hpre]&Hk&Hn&_)].
    - left. by exists pre.
    - destruct k as [|x [|y [|z k]]]; [done|..]; simplify_eq/=.
      + right. done.
      + left. done. }
  assert (Hex : forall name q,
             name ∈ excluded_names ->
             built !! (["root"; "app"] ++ name :: q)
             = base !! (["root"; "app"] ++ name :: q)).
  { intros name q Hin. apply copy_tree_excluded.
    intros rest. by apply image_ignores_names. }
  split; [|split; [exact Hch|split; [exact Hex|split; [|split]]]].
  - exists ign. split; [reflexivity|]. split.
    + apply image_ignores_names.
    + apply image_ignores_suffixes.
  - intros k Hk.
    destruct (decide (built !! k = base !! k)) as [He|Hne]; [exact He|].
    exfalso.
    destruct (Hch k Hne) as [[suf ->]|[-> _]];
      destruct Hk as [[suf' Hk]|[suf' Hk]]; discriminate Hk.
  - intros Hroot Hfresh.
    assert (Hnone : built !! ["root"; "app"; "checkpoints"] = None).
    { refine (eq_trans (Hex "checkpoints" [] _) (Hfresh ["checkpoints"])).
      by_evaluation. }
    split; [exact Hnone|]. intros w Hw.
    assert (H1 : built !! ["root"] = Some Dir).
    { destruct (decide (built !! ["root"] = base !! ["root"])) as [He|Hne];
        [congruence|].
      destruct (Hch _ Hne) as [[suf Hk]|[_ Hn]];
        [discriminate Hk|congruence]. }
    assert (H2 : built !! ["root"; "app"] = Some Dir)
      by (apply copy_tree_makes_app_root; [exact Hroot|apply (Hfresh [])]).
    apply web_links_fresh_root; rewrite Hw; assumption.
  - exists "huggingface-cli download krea/krea-realtime-video krea-realtime-video-14b.safetensors --local-dir /root/checkpoints",
      (Some "b200").
    split; [|split].
    + by_evaluation.
    + vm_compute. reflexivity.
    + vm_compute. reflexivity.
Qed.

Lemma snapshot_spares_artifacts_witness :
  snapshot
    (AddLocalDir "." "/root/app" true
       ["__pycache__"; ".git"; "*.pyc"; "outputs"; "wan_models";
        "checkpoints"; ".venv"; "uv.lock"; "*.lock"])
    sample_tree downloaded_fs
  !! ["root"; "checkpoints"; "krea-realtime-video-14b.safetensors"]
  = downloaded_fs
    !! ["root"; "checkpoints"; "krea-realtime-video-14b.safetensors"].
Proof.
  assert (Hlast :
            last image
            = Some (AddLocalDir "." "/root/app" true
                      ["__pycache__"; ".git"; "*.pyc"; "outputs";
                       "wan_models"; "checkpoints"; ".venv"; "uv.lock";
                       "*.lock"]))
    by (vm_compute; reflexivity).
  destruct (snapshot_spares_artifacts _ sample_tree downloaded_fs Hlast)
    as (_&_&_&Hkept&_).
  apply Hkept. right.
  exists ["krea-realtime-video-14b.safetensors"]. reflexivity.
Defined.

(** On the samples: the sources are copied, the excluded entries are not,
    and the bootstrap run on the result makes the link to the downloaded
    checkpoint directory, which then resolves. *)
Example snapshot_of_sample_tree :
  let built := snapshot
                 (AddLocalDir "." "/root/app" true
                    ["__pycache__"; ".git"; "*.pyc"; "outputs"; "wan_models";
                     "checkpoints"; ".venv"; "uv.lock"; "*.lock"])
                 sample_tree downloaded_fs in
  built !! ["root"; "app"; "release_server.py"] = Some (File false)
  /\ built !! ["root"; "app"; "configs"] = Some Dir
  /\ built !! ["root"; "app"; "checkpoints"] = None
  /\ built !! ["root"; "app"; "wan_models"] = None
  /\ built !! ["root"; "app"; "uv.lock"] = None
  /\ result (web (World ∅ [] built [] ∅)) = Returned tt
  /\ exists_in "checkpoints" (after (web (World ∅ [] built [] ∅))) = true.
Proof. repeat split; vm_compute; reflexivity. Qed.

(** The patterns are anchored at the copied directory: an excluded name
    further down is copied. *)
Example ignore_is_anchored :
  ignored ["__pycache__"; "*.pyc"] ["__pycache__"; "a.pyc"] = true
  /\ ignored ["__pycache__"; "*.pyc"] ["utils"; "__pycache__"; "a.pyc"] = false
  /\ ignored ["__pycache__"; "*.pyc"] ["a.pyc"] = true
  /\ ignored ["__pycache__"; "*.pyc"] ["utils"; "a.pyc"] = false.
Proof. repeat split; vm_compute; reflexivity. Qed.

(** * Further properties of the bootstrap routine *)

(** ** When the application root is no directory *)

(** Resolution fails with one of three error numbers. *)
Lemma walk_errno f follow fuel :
  forall rest cur e,
    walk fuel f follow cur rest = inl e ->
    e = ENOENT \/ e = ENOTDIR \/ e = ELOOP.
Proof.
  induction fuel as [|fuel IHf]; induction rest as [|c rest IHr];
    intros cur e H; rewrite ?walk_nil in H; try discriminate H;
    rewrite walk_cons in H;
    repeat case_decide; eauto;
    destruct (f !! (cur ++ [c])) as [[b| |t]|]; eauto;
    destruct rest, follow; simplify_eq; eauto.
Qed.

Lemma resolve_errno follow path w e :
  resolve follow path w = inl e -> e = ENOENT \/ e = ENOTDIR \/ e = ELOOP.
Proof.
  unfold resolve. case_decide; [|apply walk_errno].
  intros H'. injection H' as <-. auto.
Qed.

(** The application root, looked up under a plain [/root]. *)
Lemma resolve_app_root_lookup w :
  fs w !! ["root"] = Some Dir ->
  resolve true "/root/app" w
  = match fs w !! ["root"; "app"] with
    | None => inr (Missing ["root"; "app"])
    | Some Dir => inr (Found ["root"; "app"] Dir)
    | Some (File b) => inr (Found ["root"; "app"] (File b))
    | Some (Link t) =>
        walk (pred MAXSYMLINKS) (fs w) true
          (if posixpath.isabs t then [] else ["root"])
          (posixpath.components t)
    end.
Proof.
  intros H1. unfold resolve. rewrite decide_False by discriminate.
  change (posixpath.isabs "/root/app") with true.
  change (posixpath.components "/root/app") with ["root"; "app"].
  cbv iota. rewrite walk_cons.
  rewrite decide_False by discriminate. rewrite decide_False by discriminate.
  change ([] ++ ["root"]) with ["root"]. rewrite H1.
  rewrite walk_cons.
  rewrite decide_False by discriminate. rewrite decide_False by discriminate.
  change (["root"] ++ ["app"]) with ["root"; "app"].
  destruct (fs w !! ["root"; "app"]) as [[b| |t]|]; try reflexivity.
  change MAXSYMLINKS with (S (pred MAXSYMLINKS)) at 1.
  cbv iota. rewrite app_nil_r. reflexivity.
Qed.

(** X1. When [/root/app] does not resolve to a directory, [web] raises at
    [os.chdir]: it has made the four assignments and nothing else, no
    existence check, no link and no spawn, and the working directory, the
    file system and the process table are as they were.  The exception is
    [FileNotFoundError], [NotADirectoryError] or the [OSError] of a link
    loop; under a plain [/root] it is [FileNotFoundError] when nothing is
    named [app] there and [NotADirectoryError] when [app] is a regular
    file. *)
Theorem web_stops_at_chdir (w : world) :
  (forall d, resolve true "/root/app" w <> inr (Found d Dir)) ->
  exists e,
    web w
    = Run (Raised e) (with_environ (assigned (environ w)) w)
        (env_calls ++ [SysChdir "/root/app"])
    /\ (e = FileNotFoundError \/ e = NotADirectoryError \/ e = OSError ELOOP)
    /\ (fs w !! ["root"] = Some Dir -> fs w !! ["root"; "app"] = None ->
        e = FileNotFoundError)
    /\ (forall b,
          fs w !! ["root"] = Some Dir ->
          fs w !! ["root"; "app"] = Some (File b) ->
          e = NotADirectoryError).
Proof.
  intros Hn.
  assert (exists e, result (chdir "/root/app" w) = Raised e
                    /\ match resolve true "/root/app" w with
                       | inl er => e = OSError er
                       | inr (Missing _) => e = FileNotFoundError
                       | inr (Found _ _) => e = NotADirectoryError
                       end) as (e&He&Hk).
  { unfold chdir.
    destruct (resolve true "/root/app" w) as [er|[p [b| |t]|p]] eqn:E;
      eauto.
    exfalso. exact (Hn p eq_refl). }
  exists e. split; [exact (web_run_no_root w e Hn He)|]. split; [|split].
  - destruct (resolve true "/root/app" w) as [er|[p n|p]] eqn:E; auto.
    destruct (resolve_errno _ _ _ _ E) as [-> | [-> | ->]]; subst e; auto.
  - intros H1 H2. rewrite (resolve_app_root_lookup w H1), H2 in Hk.
    exact Hk.
  - intros b H1 H2. rewrite (resolve_app_root_lookup w H1), H2 in Hk.
    exact Hk.
Qed.

Lemma web_stops_at_chdir_witness :
  exists e,
    web blocked_instance
    = Run (Raised e)
        (with_environ (assigned (environ blocked_instance)) blocked_instance)
        (env_calls ++ [SysChdir "/root/app"])
    /\ (e = FileNotFoundError \/ e = NotADirectoryError \/ e = OSError ELOOP)
    /\ (fs blocked_instance !! ["root"] = Some Dir ->
        fs blocked_instance !! ["root"; "app"] = None ->
        e = FileNotFoundError)
    /\ (forall b,
          fs blocked_instance !! ["root"] = Some Dir ->
          fs blocked_instance !! ["root"; "app"] = Some (File b) ->
          e = NotADirectoryError).
Proof.
  apply (web_stops_at_chdir blocked_instance).
  intros d. vm_compute. discriminate.
Defined.

(** ** What a failed spawn leaves behind *)

(** What exists for [os.path.exists] has an entry under its name. *)
Lemma exists_in_checkpoints_entry w :
  exists_in "checkpoints" w = true ->
  is_Some (fs w !! (cwd w ++ ["checkpoints"])).
Proof.
  unfold exists_in. rewrite resolve_checkpoints_follow.
  destruct (fs w !! (cwd w ++ ["checkpoints"])); [eauto|discriminate].
Qed.

(** A run that raised at the spawn went through the guarded link. *)
Lemma web_raised_at_spawn w e :
  result (web w) = Raised e ->
  SysSpawn server_cmd ∈ calls (web w) ->
  exists d f',
    resolve true "/root/app" w = inr (Found d Dir)
    /\ web w
       = Run (Raised e) (entered d f' w) (calls (web w))
    /\ (exists er, e = OSError er)
    /\ is_Some (f' !! (d ++ ["checkpoints"]))
    /\ (fs w !! (d ++ ["checkpoints"]) = None ->
        f' = <[d ++ ["checkpoints"] := Link "/root/checkpoints"]> (fs w))
    /\ (is_Some (fs w !! (d ++ ["checkpoints"])) -> f' = fs w).
Proof.
  intros Hr Hin.
  destruct (web_has_shape w) as [e' Hn He|d Hd Hx|d n Hd Hx Hl|d Hd Hx Hl];
    try (exfalso; absurd_call Hin).
  - pose proof (exists_in_checkpoints_entry _ Hx) as Hs.
    change (is_Some (fs w !! (d ++ ["checkpoints"]))) in Hs.
    exists d, (fs w). rewrite result_prepend in Hr. split; [exact Hd|].
    unfold launch in *.
    destruct (subprocess.exec_search _ _ _ _) as [er|x]; [|discriminate Hr].
    injection Hr as <-. repeat split; eauto.
    intros Hnone. rewrite Hnone in Hs. by destruct Hs.
  - exists d, (<[d ++ ["checkpoints"]:=Link "/root/checkpoints"]> (fs w)).
    rewrite result_prepend in Hr. split; [exact Hd|].
    unfold launch in *.
    destruct (subprocess.exec_search _ _ _ _) as [er|x]; [|discriminate Hr].
    injection Hr as <-. repeat split; eauto.
    + rewrite lookup_insert_eq. eauto.
    + intros Hs. rewrite Hl in Hs. by destruct Hs.
Qed.

(** X2. Nothing is rolled back.  When [web] raises at the spawn, the
    exception is an [OSError], no child is in the process table, and what the
    routine did before stays done: the four variables are assigned, the
    working directory is the application root, and the expected path has an
    entry there, the new link to [/root/checkpoints] when the path had
    none. *)
Theorem web_failed_spawn_keeps_effects (w : world) (e : exn) :
  result (web w) = Raised e ->
  SysSpawn server_cmd ∈ calls (web w) ->
  (exists er, e = OSError er)
  /\ procs (after (web w)) = procs w
  /\ environ (after (web w)) = assigned (environ w)
  /\ resolve true "/root/app" w = inr (Found (cwd (after (web w))) Dir)
  /\ is_Some (fs (after (web w)) !! (cwd (after (web w)) ++ ["checkpoints"]))
  /\ (fs w !! (cwd (after (web w)) ++ ["checkpoints"]) = None ->
      fs (after (web w)) !! (cwd (after (web w)) ++ ["checkpoints"])
      = Some (Link "/root/checkpoints")).
Proof.
  intros Hr Hin.
  destruct (web_raised_at_spawn w e Hr Hin) as (d&f'&Hd&Hw&He&Hs&Hnew&_).
  rewrite Hw. cbn [after entered cwd fs environ procs].
  repeat split; auto.
  intros Hnone. rewrite (Hnew Hnone). apply lookup_insert_eq.
Qed.

Lemma web_failed_spawn_keeps_effects_witness :
  fs (after (web serverless_instance))
  !! (cwd (after (web serverless_instance)) ++ ["checkpoints"])
  = Some (Link "/root/checkpoints").
Proof.
  assert (Hr : result (web serverless_instance) = Raised FileNotFoundError)
    by (vm_compute; reflexivity).
  assert (Hin : SysSpawn server_cmd ∈ calls (web serverless_instance))
    by by_evaluation.
  destruct (web_failed_spawn_keeps_effects serverless_instance _ Hr Hin)
    as (_&_&_&_&_&Hnew).
  apply Hnew. vm_compute. reflexivity.
Defined.

(** ** The relative path after the link *)

(** X3. The link does what it is made for.  When [/root/checkpoints] is a
    directory under a plain [/root] and [web] finds nothing at the expected
    path, then after the run, whatever the outcome of the spawn, the
    relative path [checkpoints] resolves from the working directory to
    [/root/checkpoints], and the downloaded checkpoint file is reached
    through it. *)
Theorem web_link_makes_relative_path_work (w : world) (d : list string) :
  resolve true "/root/app" w = inr (Found d Dir) ->
  fs w !! (d ++ ["checkpoints"]) = None ->
  fs w !! ["root"] = Some Dir ->
  fs w !! ["root"; "checkpoints"] = Some Dir ->
  resolve true "checkpoints" (after (web w))
  = inr (Found ["root"; "checkpoints"] Dir)
  /\ exists_in "checkpoints" (after (web w)) = true
  /\ forall b,
       fs w !! ["root"; "checkpoints"; "krea-realtime-video-14b.safetensors"]
       = Some (File b) ->
       resolve true "checkpoints/krea-realtime-video-14b.safetensors"
         (after (web w))
       = inr (Found
                ["root"; "checkpoints"; "krea-realtime-video-14b.safetensors"]
                (File b)).
Proof.
  intros Hcd Hnone Hroot Hck.
  set (k := d ++ ["checkpoints"]) in *.
  set (f' := <[k := Link "/root/checkpoints"]> (fs w)).
  assert (Hk : f' !! k = Some (Link "/root/checkpoints"))
    by apply lookup_insert_eq.
  assert (Hother : forall p n, fs w !! p = Some n -> f' !! p = Some n).
  { intros p n Hp. unfold f'. rewrite lookup_insert_ne; [exact Hp|].
    intros <-. congruence. }
  assert (Hw : forall path,
             resolve true path (after (web w))
             = resolve true path (entered d f' w)).
  { intros path. rewrite (web_run_linked w d Hcd Hnone), after_prepend.
    apply resolve_ext; [apply launch_fs|apply launch_cwd]. }
  assert (H1 : resolve true "checkpoints" (after (web w))
               = inr (Found ["root"; "checkpoints"] Dir)).
  { rewrite Hw, resolve_checkpoints_follow.
    change (fs (entered d f' w)) with f'.
    change (cwd (entered d f' w) ++ ["checkpoints"]) with k.
    rewrite Hk.
    change (posixpath.isabs "/root/checkpoints") with true.
    change (posixpath.components "/root/checkpoints")
      with ["root"; "checkpoints"].
    cbv iota. rewrite walk_cons.
    rewrite decide_False by discriminate.
    rewrite decide_False by discriminate.
    change ([] ++ ["root"]) with ["root"]. rewrite (Hother _ _ Hroot).
    rewrite walk_cons.
    rewrite decide_False by discriminate.
    rewrite decide_False by discriminate.
    change (["root"] ++ ["checkpoints"]) with ["root"; "checkpoints"].
    rewrite (Hother _ _ Hck). apply walk_nil. }
  split; [exact H1|]. split; [unfold exists_in; rewrite H1; reflexivity|].
  intros b Hfile. rewrite Hw. unfold resolve.
  rewrite decide_False by discriminate.
  change (posixpath.isabs "checkpoints/krea-realtime-video-14b.safetensors")
    with false.
  change (posixpath.components
            "checkpoints/krea-realtime-video-14b.safetensors")
    with ["checkpoints"; "krea-realtime-video-14b.safetensors"].
  cbv iota.
  change (fs (entered d f' w)) with f'.
  change (cwd (entered d f' w)) with d.
  rewrite walk_cons.
  rewrite decide_False by discriminate.
  rewrite decide_False by discriminate.
  fold k. rewrite Hk.
  change MAXSYMLINKS with (S (pred MAXSYMLINKS)) at 1. cbv iota.
  change (posixpath.isabs "/root/checkpoints") with true.
  change (posixpath.components "/root/checkpoints")
    with ["root"; "checkpoints"].
  cbv iota.
  change (["root"; "checkpoints"] ++ ["krea-realtime-video-14b.safetensors"])
    with ["root"; "checkpoints"; "krea-realtime-video-14b.safetensors"].
  rewrite walk_cons.
  rewrite decide_False by discriminate.
  rewrite decide_False by discriminate.
  change ([] ++ ["root"]) with ["root"]. rewrite (Hother _ _ Hroot).
  rewrite walk_cons.
  rewrite decide_False by discriminate.
  rewrite decide_False by discriminate.
  change (["root"] ++ ["checkpoints"]) with ["root"; "checkpoints"].
  rewrite (Hother _ _ Hck).
  rewrite walk_cons.
  rewrite decide_False by discriminate.
  rewrite decide_False by discriminate.
  change (["root"; "checkpoints"] ++ ["krea-realtime-video-14b.safetensors"])
    with ["root"; "checkpoints"; "krea-realtime-video-14b.safetensors"].
  rewrite (Hother _ _ Hfile). reflexivity.
Qed.

Lemma web_link_makes_relative_path_work_witness :
  resolve true "checkpoints/krea-realtime-video-14b.safetensors"
    (after (web fresh_instance))
  = inr (Found
           ["root"; "checkpoints"; "krea-realtime-video-14b.safetensors"]
           (File false)).
Proof.
  assert (H1 : resolve true "/root/app" fresh_instance
               = inr (Found ["root"; "app"] Dir))
    by (vm_compute; reflexivity).
  assert (H2 : fs fresh_instance !! (["root"; "app"] ++ ["checkpoints"])
               = None)
    by (vm_compute; reflexivity).
  assert (H3 : fs fresh_instance !! ["root"] = Some Dir)
    by (vm_compute; reflexivity).
  assert (H4 : fs fresh_instance !! ["root"; "checkpoints"] = Some Dir)
    by (vm_compute; reflexivity).
  apply (web_link_makes_relative_path_work fresh_instance _ H1 H2 H3 H4).
  vm_compute. reflexivity.
Defined.

(** ** A second run *)

Lemma assigned_idem e : assigned (assigned e) = assigned e.
Proof.
  apply map_eq. intros k.
  destruct (decide (k ∈ ["MODEL_FOLDER"; "CONFIG"; "CUDA_VISIBLE_DEVICES";
                         "DO_COMPILE"])) as [Hin|Hout].
  - destruct (assigned_populated (assigned e)) as (H1&H2&H3&H4).
    destruct (assigned_populated e) as (G1&G2&G3&G4).
    repeat (apply elem_of_cons in Hin as [->|Hin]; [congruence|]).
    by apply elem_of_nil in Hin.
  - by apply assigned_other.
Qed.

(** The child of a run that returned. *)
Lemma web_returned_child w :
  result (web w) = Returned tt ->
  exists d x,
    resolve true "/root/app" w = inr (Found d Dir)
    /\ cwd (after (web w)) = d
    /\ procs (after (web w))
       = procs w ++ [Process server_cmd x (assigned (environ w)) d Running].
Proof.
  intros Hr.
  destruct (web_has_shape w) as [e Hn He|d Hd Hx|d n Hd Hx Hl|d Hd Hx Hl];
    rewrite ?result_prepend in Hr; try discriminate Hr;
    rewrite after_prepend, launch_cwd;
    match type of Hr with result (launch ?W) = _ =>
      destruct (launch_cases W) as [(x&_&_&Hp)|(e&_&He&_)];
        [exists d, x; auto|congruence]
    end.
Qed.

(** X4. The guard protects the link, not the server.  When a run has
    returned and a second run on the state it left returns as well, the
    process table holds two children more than at the start, both running
    the server command, with the same environment and the same working
    directory; the second run changes neither the environment nor the
    working directory the first one left. *)
Theorem web_rerun_starts_second_server (w : world) :
  result (web w) = Returned tt ->
  result (web (after (web w))) = Returned tt ->
  (exists c1 c2,
      procs (after (web (after (web w)))) = procs w ++ [c1; c2]
      /\ argv c1 = server_cmd /\ argv c2 = server_cmd
      /\ status c1 = Running /\ status c2 = Running
      /\ penv c1 = penv c2 /\ pcwd c1 = pcwd c2)
  /\ environ (after (web (after (web w)))) = environ (after (web w))
  /\ cwd (after (web (after (web w)))) = cwd (after (web w)).
Proof.
  intros Hr1 Hr2.
  destruct (web_returned_child w Hr1) as (d&x&Hd&Hc1&Hp1).
  destruct (web_returned_child _ Hr2) as (d'&x'&Hd'&Hc2&Hp2).
  rewrite (web_root_stable w d Hd) in Hd'. injection Hd' as <-.
  rewrite Hp1, <- app_assoc in Hp2. cbn [List.app] in Hp2.
  rewrite (web_environ w), assigned_idem in Hp2.
  split; [|split].
  - eexists _, _. split; [exact Hp2|]. repeat split.
  - rewrite !web_environ. apply assigned_idem.
  - congruence.
Qed.

Lemma web_rerun_starts_second_server_witness :
  (exists c1 c2,
      procs (after (web (after (web fresh_instance))))
      = procs fresh_instance ++ [c1; c2]
      /\ argv c1 = server_cmd /\ argv c2 = server_cmd
      /\ status c1 = Running /\ status c2 = Running
      /\ penv c1 = penv c2 /\ pcwd c1 = pcwd c2)
  /\ environ (after (web (after (web fresh_instance))))
     = environ (after (web fresh_instance))
  /\ cwd (after (web (after (web fresh_instance))))
     = cwd (after (web fresh_instance)).
Proof.
  apply (web_rerun_starts_second_server fresh_instance);
    vm_compute; reflexivity.
Defined.

(** ** The port and the address *)

(** The arguments of a spawn are the server command. *)
Lemma web_spawn_args w args :
  SysSpawn args ∈ calls (web w) -> args = server_cmd.
Proof.
  intros Hin.
  destruct (web_calls w) as [H|[H|[H|H]]]; rewrite H in Hin;
    unfold env_calls in Hin; simpl in Hin;
    repeat (apply elem_of_cons in Hin as [Hin|Hin]; [try discriminate|]);
    try (by apply elem_of_nil in Hin);
    injection Hin as ->; reflexivity.
Qed.

(** X5. The server listens where the platform looks for it.  In every run
    that spawns, the value after [--port] is the decimal text of the port
    given to [web_server], and the value after [--host] is the address of
    all interfaces. *)
Theorem web_serves_registered_port (w : world) (args : list string) :
  SysSpawn args ∈ calls (web w) ->
  option_value "--port" args = Some (pretty (reg_port web_registration))
  /\ option_value "--host" args = Some "0.0.0.0".
Proof.
  intros Hin. rewrite (web_spawn_args w args Hin).
  split; vm_compute; reflexivity.
Qed.

Lemma web_serves_registered_port_witness :
  option_value "--port" server_cmd
  = Some (pretty (reg_port web_registration))
  /\ option_value "--host" server_cmd = Some "0.0.0.0".
Proof.
  apply (web_serves_registered_port fresh_instance). by_evaluation.
Defined.

(** ** The environment of the server *)

(** X6. The server inherits the environment of [web].  In a run that
    returns, the child's environment is the environment [web] leaves: the
    four variables hold the values assigned, and every other variable is
    as the container had it at the start, neither dropped nor changed. *)
Theorem web_child_environment (w : world) :
  result (web w) = Returned tt ->
  exists c,
    last (procs (after (web w))) = Some c
    /\ penv c = environ (after (web w))
    /\ populated (penv c)
    /\ forall k, k ∉ web_variables -> penv c !! k = environ w !! k.
Proof.
  intros Hr. destruct (web_returned_child w Hr) as (d&x&_&_&Hp).
  exists (Process server_cmd x (assigned (environ w)) d Running).
  split; [|split; [|split]].
  - rewrite Hp. apply last_snoc.
  - cbn [penv]. symmetry. apply web_environ.
  - apply assigned_populated.
  - intros k Hk. cbn [penv]. by apply assigned_other.
Qed.

Lemma web_child_environment_witness :
  exists c,
    last (procs (after (web fresh_instance))) = Some c
    /\ penv c = environ (after (web fresh_instance))
    /\ populated (penv c)
    /\ forall k, k ∉ web_variables ->
                 penv c !! k = environ fresh_instance !! k.
Proof.
  apply (web_child_environment fresh_instance). vm_compute. reflexivity.
Defined.

(** ** The build state of the downloads *)

Lemma build_step_packages (b : build_state) (s : step) (p : string) :
  p ∈ pip_packages b -> p ∈ pip_packages (build_step b s).
Proof.
  intros Hp. destruct s; cbn [build_step pip_packages]; try exact Hp.
  apply elem_of_app. by left.
Qed.

(** A package installed stays installed. *)
Lemma build_steps_packages (steps : list step) :
  forall (b : build_state) (p : string),
    p ∈ pip_packages b -> p ∈ pip_packages (fold_left build_step steps b).
Proof.
  induction steps as [|s steps IH]; intros b p Hp; [exact Hp|].
  cbn [fold_left]. apply IH. by apply build_step_packages.
Qed.

(** X7. The downloads run with the fast transfer installed and turned
    on.  Every download step of [image] runs in a build state in which
    [pip_install] has installed [hf-transfer] and [env] has set
    [HF_HUB_ENABLE_HF_TRANSFER] to [1]. *)
Theorem downloads_use_hf_transfer (n : nat) (s : step) :
  image !! n = Some s ->
  phase_of s = Some Download ->
  "hf-transfer" ∈ pip_packages (build_before n image)
  /\ build_env (build_before n image) !! "HF_HUB_ENABLE_HF_TRANSFER"
     = Some "1".
Proof.
  intros Hn Hs.
  do 11 (destruct n as [|n];
         [vm_compute in Hn; injection Hn as <-;
          first [discriminate Hs
                |split; [by_evaluation|vm_compute; reflexivity]]|]).
  vm_compute in Hn. discriminate Hn.
Qed.

Lemma downloads_use_hf_transfer_witness :
  "hf-transfer" ∈ pip_packages (build_before 7 image)
  /\ build_env (build_before 7 image) !! "HF_HUB_ENABLE_HF_TRANSFER"
     = Some "1".
Proof.
  apply (downloads_use_hf_transfer 7
           (RunCommands
              ["huggingface-cli download Wan-AI/Wan2.1-T2V-1.3B --local-dir-use-symlinks False --local-dir /root/wan_models/Wan2.1-T2V-1.3B"]
              (Some "b200")));
    vm_compute; reflexivity.
Defined.

(** ** The accelerator *)

(** X8. One accelerator throughout.  Every step of [image] that asks for a
    GPU asks for the one the function is registered with, so what is
    compiled during the build is compiled on the hardware it runs on. *)
Theorem image_builds_on_registered_gpu (s : step) (g : string) :
  s ∈ reg_image web_registration ->
  gpu_of s = Some g ->
  g = reg_gpu web_registration.
Proof.
  intros Hin Hg. cbn [reg_image reg_gpu web_registration] in *.
  unfold image, from_registry, entrypoint, apt_install, uv_sync, pip_install,
    env, run_commands, add_local_dir in Hin.
  cbn [List.app] in Hin.
  repeat (apply elem_of_cons in Hin as [->|Hin];
          [cbn [gpu_of] in Hg; first [discriminate Hg|by injection Hg as <-]|]).
  by apply elem_of_nil in Hin.
Qed.

Lemma image_builds_on_registered_gpu_witness :
  "b200" = reg_gpu web_registration.
Proof.
  apply (image_builds_on_registered_gpu
           (PipInstall ["flash-attn"] "--no-build-isolation" (Some "b200"))).
  - by_evaluation.
  - reflexivity.
Defined.

(** ** Where the downloads land *)

(** X9. The downloads land where [web] looks.  The directory a download
    step of [image] writes to is either an entry of the directory
    [MODEL_FOLDER] names after a run of [web], or the very text [web] gives
    every link it makes as its target. *)
Theorem downloads_land_where_web_looks (w : world) (command : string)
    (gpu : option string) (d : string) :
  RunCommands [command] gpu ∈ image ->
  local_dir command = Some d ->
  (exists m name,
      environ (after (web w)) !! "MODEL_FOLDER" = Some m
      /\ posixpath.components d = posixpath.components m ++ [name])
  \/ (forall src dst, SysSymlink src dst ∈ calls (web w) -> src = d).
Proof.
  intros Hin Hd. rewrite web_environ.
  destruct (assigned_populated (environ w)) as (Hm&_).
  unfold image, from_registry, entrypoint, apt_install, uv_sync, pip_install,
    env, run_commands, add_local_dir in Hin.
  cbn [List.app] in Hin.
  repeat (apply elem_of_cons in Hin as [Hin|Hin];
          [try discriminate Hin|]);
    try (by apply elem_of_nil in Hin);
    injection Hin as -> ->; vm_compute in Hd; injection Hd as <-.
  - left. eexists _, "Wan2.1-T2V-1.3B". split; [exact Hm|].
    vm_compute. reflexivity.
  - left. eexists _, "Wan2.1-T2V-14B". split; [exact Hm|].
    vm_compute. reflexivity.
  - right. intros src dst Hc.
    destruct (web_calls w) as [H|[H|[H|H]]]; rewrite H in Hc;
      unfold env_calls in Hc; simpl in Hc;
      repeat (apply elem_of_cons in Hc as [Hc|Hc]; [try discriminate Hc|]);
      try (by apply elem_of_nil in Hc);
      injection Hc as -> ->; reflexivity.
Qed.

Lemma downloads_land_where_web_looks_witness :
  (exists m name,
      environ (after (web fresh_instance)) !! "MODEL_FOLDER" = Some m
      /\ posixpath.components "/root/checkpoints"
         = posixpath.components m ++ [name])
  \/ (forall src dst,
        SysSymlink src dst ∈ calls (web fresh_instance) ->
        src = "/root/checkpoints").
Proof.
  apply (downloads_land_where_web_looks fresh_instance
           "huggingface-cli download krea/krea-realtime-video krea-realtime-video-14b.safetensors --local-dir /root/checkpoints"
           (Some "b200")).
  - by_evaluation.
  - vm_compute. reflexivity.
Defined.

(** * Further properties of the snapshot *)

(** ** What the patterns match *)

(** A pattern without wildcard matches its own text; read as the rest of a
    regular expression it also matches that text with a newline after
    it. *)
Lemma glob_from_literal re pat :
  literal pat = true ->
  forall s,
    glob_from re pat s = true ->
    s = pat \/ (re = true /\ s = pat +:+ newline).
Proof.
  unfold literal. induction pat as [|c pat IH]; intros Hl s Hg.
  - cbn [glob_from] in Hg. apply orb_true_iff in Hg as [Hg|Hg].
    + left. by apply bool_decide_eq_true in Hg.
    + apply andb_true_iff in Hg as [Hre Hg]. right.
      split; [exact Hre|]. by apply bool_decide_eq_true in Hg.
  - cbn [contains_char] in Hl.
    apply andb_true_iff in Hl as [H1 H2].
    apply negb_true_iff, orb_false_elim in H1 as [H1 H1'].
    apply negb_true_iff, orb_false_elim in H2 as [H2 H2'].
    cbn [glob_from] in Hg. rewrite Ascii.eqb_sym, H1 in Hg.
    destruct s as [|d s]; [discriminate Hg|].
    rewrite (Ascii.eqb_sym c "?"), H2, orb_false_r in Hg.
    cbn [andb orb] in Hg.
    apply andb_true_iff in Hg as [Hc Hg].
    apply Ascii.eqb_eq in Hc as ->.
    destruct (IH ltac:(by rewrite H1', H2') s Hg) as [->|[Hre ->]].
    + by left.
    + right. by split.
Qed.

Lemma glob_literal pat :
  literal pat = true -> forall s, glob pat s = true -> s = pat.
Proof.
  intros Hl s Hg.
  destruct (glob_from_literal false pat Hl s Hg) as [H|[H _]];
    [exact H|discriminate H].
Qed.

(** What [*] followed by a pattern matches: a run of characters without
    separator, then a match of the pattern as the rest of a regular
    expression. *)
Lemma glob_star_inv pat s :
  glob (String "*" pat) s = true ->
  exists stem rest,
    s = stem +:+ rest /\ contains_char "/" stem = false
    /\ glob_from true pat rest = true.
Proof.
  induction s as [|d s IH]; rewrite glob_star; intros H.
  - rewrite orb_false_r in H. by exists "", "".
  - apply orb_true_iff in H as [H|H].
    + by exists "", (String d s).
    + apply andb_true_iff in H as [Hd H].
      destruct (IH H) as (stem&rest&->&Hs&Hg).
      exists (String d stem), rest. repeat split; [|exact Hg].
      cbn [contains_char]. rewrite Ascii.eqb_sym.
      apply negb_true_iff in Hd. rewrite Hd, Hs. reflexivity.
Qed.

Lemma contains_char_app c a b :
  contains_char c (a +:+ b) = contains_char c a || contains_char c b.
Proof.
  induction a as [|d a IH]; [reflexivity|].
  change (String d a +:+ b) with (String d (a +:+ b)).
  cbn [contains_char]. rewrite IH. apply orb_assoc.
Qed.

Lemma prefixes_app {A} (l m : list A) :
  prefixes (l ++ m) = prefixes l ++ map (List.app l) (prefixes m).
Proof.
  induction l as [|x l IH]; cbn [List.app prefixes].
  - rewrite map_id. reflexivity.
  - rewrite IH, map_app, map_map. reflexivity.
Qed.

(** A pattern that hits a path hits every path below it. *)
Lemma pattern_hits_below pat rel more :
  pattern_hits pat rel = true -> pattern_hits pat (rel ++ more) = true.
Proof.
  unfold pattern_hits. rewrite prefixes_app, existsb_app.
  intros ->. reflexivity.
Qed.

(** The verdict of patterns without exclusion is inherited downwards. *)
Lemma ignored_below ign rel more :
  Forall (fun s => exclusion (parse_pattern s) = false) ign ->
  ignored ign rel = true -> ignored ign (rel ++ more) = true.
Proof.
  intros Hall Hi.
  assert (Hp : Forall (fun p => exclusion p = false) (map parse_pattern ign)).
  { apply Forall_forall. intros p Hp.
    apply list_elem_of_fmap in Hp as (s&->&Hs).
    rewrite Forall_forall in Hall. exact (Hall s Hs). }
  assert (Hrel : rel <> []) by (intros ->; discriminate Hi).
  unfold ignored in *.
  rewrite matches_inclusions in Hi by assumption.
  rewrite matches_inclusions; [|by destruct rel|assumption].
  apply existsb_exists in Hi as (p&Hin&Hh).
  apply existsb_exists. exists p. split; [exact Hin|].
  by apply pattern_hits_below.
Qed.

(** X10. Whatever lies under an ignored path is ignored: the patterns of the
    snapshot hold no exclusion, so a path that is ignored takes every path
    below it with it. *)
Theorem snapshot_ignores_subtrees (s : step) (rel more : list string) :
  last image = Some s ->
  ignored (ignore_of s) rel = true ->
  ignored (ignore_of s) (rel ++ more) = true.
Proof.
  intros Hs. vm_compute in Hs. injection Hs as <-.
  apply ignored_below. exact image_ignore_inclusions.
Qed.

Lemma snapshot_ignores_subtrees_witness :
  ignored
    (ignore_of
       (AddLocalDir "." "/root/app" true
          ["__pycache__"; ".git"; "*.pyc"; "outputs"; "wan_models";
           "checkpoints"; ".venv"; "uv.lock"; "*.lock"]))
    ([".venv"; "lib"] ++ ["python3.11"; "site.py"]) = true.
Proof.
  apply snapshot_ignores_subtrees; vm_compute; reflexivity.
Defined.

(** A top-level name that is ignored is matched by one of the patterns. *)
Lemma ignored_name_inv ign name :
  Forall (fun s => exclusion (parse_pattern s) = false) ign ->
  ignored ign [name] = true ->
  exists pat, pat ∈ ign /\ glob pat name = true.
Proof.
  intros Hall Hi.
  assert (Hp : Forall (fun p => exclusion p = false) (map parse_pattern ign)).
  { apply Forall_forall. intros p Hp.
    apply list_elem_of_fmap in Hp as (s&->&Hs).
    rewrite Forall_forall in Hall. exact (Hall s Hs). }
  unfold ignored in Hi.
  rewrite matches_inclusions in Hi; [|discriminate|exact Hp].
  apply existsb_exists in Hi as (p&Hin&Hh).
  apply in_map_iff in Hin as (pat&<-&Hin).
  exists pat. split; [by apply list_elem_of_In|].
  rewrite Forall_forall in Hall.
  rewrite (parse_pattern_inclusion pat) in Hh
    by (apply Hall; by apply list_elem_of_In).
  unfold pattern_hits in Hh. cbn [prefixes existsb join_with map] in Hh.
  rewrite orb_false_r in Hh. exact Hh.
Qed.

(** The suffixes of the names the two wildcard patterns match: the text
    after the star, and that text with a newline after it. *)
Lemma image_ignores_suffix stem suffix rest :
  contains_char "/" stem = false ->
  suffix ∈ [".lock"; ".pyc"; ".lock" +:+ newline; ".pyc" +:+ newline] ->
  ignored
    ["__pycache__"; ".git"; "*.pyc"; "outputs"; "wan_models";
     "checkpoints"; ".venv"; "uv.lock"; "*.lock"]
    ((stem +:+ suffix) :: rest) = true.
Proof.
  intros Hst Hsuf.
  repeat (apply elem_of_cons in Hsuf as [->|Hsuf];
          [first
             [apply (ignored_by_pattern _ "*.lock");
              [exact image_ignore_inclusions|by_evaluation
              |apply glob_star_suffix; [exact Hst|reflexivity]]
             |apply (ignored_by_pattern _ "*.pyc");
              [exact image_ignore_inclusions|by_evaluation
              |apply glob_star_suffix; [exact Hst|reflexivity]]]|]).
  by apply elem_of_nil in Hsuf.
Qed.

(** X11. At the top of the copied directory the patterns exclude exactly the
    seven names, the names that end in [.lock] or [.pyc], and the names
    that end in one of these two suffixes and a newline, which the anchor
    [$] of the compiled pattern lets through: every other top-level file of
    the source is kept. *)
Theorem snapshot_top_level_exclusions (s : step) (name : string) :
  last image = Some s ->
  file_name name = true ->
  ignored (ignore_of s) [name] = true
  <-> name ∈ excluded_names
      \/ exists stem suffix,
           name = stem +:+ suffix
           /\ suffix ∈ [".lock"; ".pyc";
                        ".lock" +:+ newline; ".pyc" +:+ newline].
Proof.
  intros Hs Hname. vm_compute in Hs. injection Hs as <-. cbn [ignore_of].
  assert (Hsep : contains_char "/" name = false).
  { unfold file_name in Hname.
    repeat (apply andb_true_iff in Hname as [Hname _]).
    by apply negb_true_iff in Hname. }
  split.
  - intros Hi.
    destruct (ignored_name_inv _ _ image_ignore_inclusions Hi)
      as (pat&Hin&Hg).
    assert (Hlit : forall q, literal q = true -> pat = q ->
                             q ∈ excluded_names -> name ∈ excluded_names).
    { intros q Hq -> Hmem. by rewrite (glob_literal q Hq name Hg). }
    assert (Hsuf : forall q, literal q = true -> pat = String "*" q ->
                   exists stem suffix,
                     name = stem +:+ suffix
                     /\ (suffix = q \/ suffix = q +:+ newline)).
    { intros q Hq ->.
      destruct (glob_star_inv _ _ Hg) as (stem&rest&->&_&Hr).
      exists stem, rest. split; [reflexivity|].
      destruct (glob_from_literal true q Hq rest Hr) as [->|[_ ->]]; auto. }
    repeat (apply elem_of_cons in Hin as [Hin|Hin];
            [first
               [left; apply (Hlit pat);
                [rewrite Hin; reflexivity|reflexivity
                |rewrite Hin; by_evaluation]
               |right;
                destruct (Hsuf ".pyc" eq_refl Hin) as (stem&suffix&?&[->| ->]);
                exists stem; eexists; (split; [eassumption|by_evaluation])
               |right;
                destruct (Hsuf ".lock" eq_refl Hin) as (stem&suffix&?&[->| ->]);
                exists stem; eexists; (split; [eassumption|by_evaluation])]
            |]).
    by apply elem_of_nil in Hin.
  - intros [Hin|(stem&suffix&->&Hsuf)].
    + by apply image_ignores_names.
    + apply image_ignores_suffix; [|exact Hsuf].
      rewrite contains_char_app in Hsep.
      by apply orb_false_elim in Hsep as [Hsep _].
Qed.

Lemma snapshot_top_level_exclusions_witness :
  ignored
    (ignore_of
       (AddLocalDir "." "/root/app" true
          ["__pycache__"; ".git"; "*.pyc"; "outputs"; "wan_models";
           "checkpoints"; ".venv"; "uv.lock"; "*.lock"]))
    ["poetry.lock"] = true.
Proof.
  apply snapshot_top_level_exclusions;
    [vm_compute; reflexivity|vm_compute; reflexivity|].
  right. exists "poetry", ".lock". split; [reflexivity|by_evaluation].
Defined.

(** The anchor at work: a compiled pattern takes a name with a newline
    after the suffix, a pattern compared as a text does not. *)
Example ignore_end_anchor :
  ignored (ignore_of (AddLocalDir "." "/root/app" true
                        ["checkpoints"; "*.pyc"]))
    ["a.pyc" +:+ newline] = true
  /\ ignored (ignore_of (AddLocalDir "." "/root/app" true
                           ["checkpoints"; "*.pyc"]))
       ["checkpoints" +:+ newline] = false
  /\ ignored (ignore_of (AddLocalDir "." "/root/app" true
                           ["checkpoints"; "*.pyc"]))
       ["a.pyc" +:+ newline +:+ newline] = false.
Proof. repeat split; vm_compute; reflexivity. Qed.

(** ** The patterns look at the first component only *)

(** A pattern without separator matches no text with a separator. *)
Lemma glob_from_no_separator pat :
  contains_char "/" pat = false ->
  forall re s, glob_from re pat s = true -> contains_char "/" s = false.
Proof.
  induction pat as [|c pat IH]; intros Hp re s Hg.
  - cbn [glob_from] in Hg. apply orb_true_iff in Hg as [Hg|Hg].
    + apply bool_decide_eq_true in Hg as ->. reflexivity.
    + apply andb_true_iff in Hg as [_ Hg].
      apply bool_decide_eq_true in Hg as ->. reflexivity.
  - cbn [contains_char] in Hp. apply orb_false_elim in Hp as [Hc Hp].
    destruct (Ascii.eqb c "*") eqn:Hstar.
    + apply Ascii.eqb_eq in Hstar as ->.
      induction s as [|d s IHs]; [reflexivity|].
      rewrite glob_from_star in Hg. apply orb_true_iff in Hg as [Hg|Hg].
      * by apply (IH Hp true).
      * apply andb_true_iff in Hg as [Hd Hg].
        cbn [contains_char]. rewrite Ascii.eqb_sym.
        apply negb_true_iff in Hd. rewrite Hd. by apply IHs.
    + cbn [glob_from] in Hg. rewrite Hstar in Hg.
      destruct s as [|d s]; [reflexivity|].
      apply andb_true_iff in Hg as [Hd Hg].
      cbn [contains_char]. rewrite (IH Hp _ s Hg), orb_false_r.
      apply orb_true_iff in Hd as [Hd|Hd].
      * apply andb_true_iff in Hd as [_ Hd].
        apply negb_true_iff in Hd. by rewrite Ascii.eqb_sym.
      * apply Ascii.eqb_eq in Hd as <-. exact Hc.
Qed.

Lemma glob_no_separator pat :
  contains_char "/" pat = false ->
  forall s, glob pat s = true -> contains_char "/" s = false.
Proof. intros Hp s. by apply glob_from_no_separator. Qed.

(** The text of a path of two components or more has a separator. *)
Lemma join_with_separator x y l :
  contains_char "/" (join_with "/" (x :: y :: l)) = true.
Proof.
  change (join_with "/" (x :: y :: l))
    with (x +:+ "/" +:+ join_with "/" (y :: l)).
  rewrite contains_char_app.
  change ("/" +:+ join_with "/" (y :: l))
    with (String "/" (join_with "/" (y :: l))).
  cbn [contains_char]. rewrite Ascii.eqb_refl. apply orb_true_r.
Qed.

Lemma prefixes_nonempty {A} (l pre : list A) :
  In pre (prefixes l) -> pre <> [].
Proof.
  destruct l as [|x l]; [contradiction|]. cbn [prefixes].
  intros [<-|Hin]; [discriminate|].
  apply in_map_iff in Hin as (tl&<-&_). discriminate.
Qed.

(** A pattern without separator hits a path only at its first component. *)
Lemma pattern_hits_first pat name rest :
  contains_char "/" pat = false ->
  pattern_hits pat (name :: rest) = glob pat name.
Proof.
  intros Hp. unfold pattern_hits. cbn [prefixes existsb join_with].
  destruct (glob pat name); [reflexivity|]. cbn [orb].
  apply not_true_is_false. intros H.
  apply existsb_exists in H as (pre&Hin&Hg).
  apply in_map_iff in Hin as (tl&<-&Hin).
  destruct tl as [|y tl]; [by apply prefixes_nonempty in Hin|].
  apply (glob_no_separator pat Hp) in Hg.
  rewrite join_with_separator in Hg. discriminate Hg.
Qed.

Lemma ignored_first_component ign name rest :
  Forall (fun s => exclusion (parse_pattern s) = false) ign ->
  Forall (fun s => contains_char "/" s = false) ign ->
  ignored ign (name :: rest) = ignored ign [name].
Proof.
  intros Hall Hsep.
  assert (Hp : Forall (fun p => exclusion p = false) (map parse_pattern ign)).
  { apply Forall_forall. intros p Hp.
    apply list_elem_of_fmap in Hp as (s&->&Hs).
    rewrite Forall_forall in Hall. exact (Hall s Hs). }
  unfold ignored.
  rewrite !matches_inclusions by (discriminate || exact Hp).
  clear Hp. induction ign as [|pat ign IH]; [reflexivity|].
  apply Forall_cons in Hall as [Ha Hall].
  apply Forall_cons in Hsep as [Hs Hsep].
  cbn [map existsb]. rewrite (IH Hall Hsep).
  rewrite (parse_pattern_inclusion pat Ha).
  rewrite !pattern_hits_first by exact Hs. reflexivity.
Qed.

(** X12. The patterns of the snapshot look at the first component of a path
    and at nothing else: a file is excluded exactly when the top-level
    entry it lies under is.  A [__pycache__] directory or a [.pyc] file
    inside a directory that is kept is therefore kept as well. *)
Theorem snapshot_verdict_by_first_component (s : step) (name : string)
    (rest : list string) :
  last image = Some s ->
  ignored (ignore_of s) (name :: rest) = ignored (ignore_of s) [name].
Proof.
  intros Hs. vm_compute in Hs. injection Hs as <-. cbn [ignore_of].
  apply ignored_first_component.
  - exact image_ignore_inclusions.
  - repeat constructor.
Qed.

Lemma snapshot_verdict_by_first_component_witness :
  ignored
    (ignore_of
       (AddLocalDir "." "/root/app" true
          ["__pycache__"; ".git"; "*.pyc"; "outputs"; "wan_models";
           "checkpoints"; ".venv"; "uv.lock"; "*.lock"]))
    ["utils"; "__pycache__"; "misc.cpython-311.pyc"]
  = ignored
      (ignore_of
         (AddLocalDir "." "/root/app" true
            ["__pycache__"; ".git"; "*.pyc"; "outputs"; "wan_models";
             "checkpoints"; ".venv"; "uv.lock"; "*.lock"]))
      ["utils"].
Proof.
  apply snapshot_verdict_by_first_component. vm_compute. reflexivity.
Defined.

(** ** What the snapshot copies *)

Section Copies.

Variables (remote : list string).

(** An entry that is there stays through the making of directories. *)
Lemma mkdirs_keeps (rest cur : list string) (f : filesystem)
    (k : list string) (n : node) :
  f !! k = Some n -> mkdirs cur rest f !! k = Some n.
Proof.
  intros Hk.
  destruct (decide (mkdirs cur rest f !! k = f !! k)) as [He|Hne];
    [congruence|].
  destruct (mkdirs_changes _ _ _ _ Hne) as (_&_&_&_&_&Hn&_). congruence.
Qed.

(** The copy of another file leaves an entry as it is. *)
Lemma copy_entry_keeps (f : filesystem) (e : list string * node)
    (k : list string) (n : node) :
  f !! k = Some n -> k <> remote ++ e.1 ->
  copy_entry remote f e !! k = Some n.
Proof.
  intros Hk Hne. unfold copy_entry.
  destruct (e.1) as [|x rel] eqn:E; [exact Hk|].
  destruct (e.2) as [b| |t]; [|exact Hk..].
  rewrite lookup_insert_ne by congruence. by apply mkdirs_keeps.
Qed.

(** An entry that is not a regular file is passed over. *)
Lemma copy_entry_skips (f : filesystem) (rel : list string) (n : node) :
  (forall b, n <> File b) -> copy_entry remote f (rel, n) = f.
Proof.
  intros Hn. unfold copy_entry. cbn [fst snd].
  destruct rel as [|x rel]; [reflexivity|].
  destruct n as [b| |t]; [|reflexivity..]. by destruct (Hn b).
Qed.

Lemma copy_entry_writes (f : filesystem) (rel : list string) (b : bool) :
  rel <> [] ->
  copy_entry remote f (rel, File b) !! (remote ++ rel) = Some (File b).
Proof.
  intros Hrel. unfold copy_entry. cbn [fst snd].
  destruct rel; [contradiction|]. apply lookup_insert_eq.
Qed.

Lemma copy_entries_keep (entries : list (list string * node))
    (rel : list string) (b : bool) :
  rel <> [] ->
  (forall b', (rel, File b') ∈ entries -> b' = b) ->
  forall f : filesystem,
    f !! (remote ++ rel) = Some (File b) ->
    fold_left (copy_entry remote) entries f !! (remote ++ rel)
    = Some (File b).
Proof.
  intros Hrel. induction entries as [|[rel' n'] entries IH];
    intros Hu f Hf; [exact Hf|].
  cbn [fold_left]. apply IH.
  - intros m Hm. apply Hu. by right.
  - destruct (decide (rel' = rel)) as [->|Hne].
    + destruct n' as [b'| |t].
      * rewrite (Hu b') by left. by apply copy_entry_writes.
      * by rewrite copy_entry_skips.
      * by rewrite copy_entry_skips.
    + apply copy_entry_keeps; [exact Hf|]. cbn [fst].
      intros Heq. apply app_inv_head in Heq. congruence.
Qed.

Lemma copy_entries_copy (entries : list (list string * node))
    (rel : list string) (b : bool) :
  rel <> [] ->
  (rel, File b) ∈ entries ->
  (forall b', (rel, File b') ∈ entries -> b' = b) ->
  forall f : filesystem,
    fold_left (copy_entry remote) entries f !! (remote ++ rel)
    = Some (File b).
Proof.
  intros Hrel. induction entries as [|e entries IH]; intros Hin Hu f.
  - by apply elem_of_nil in Hin.
  - cbn [fold_left]. apply elem_of_cons in Hin as [<-|Hin].
    + apply copy_entries_keep; [exact Hrel| |by apply copy_entry_writes].
      intros m Hm. apply Hu. by right.
    + apply IH; [exact Hin|]. intros m Hm. apply Hu. by right.
Qed.

(** A regular file of the tree that is not ignored is in the image at its
    path below the remote directory, provided the tree gives the path one
    content. *)
Lemma copy_tree_copies (ign : list string)
    (tree : list (list string * node)) (f : filesystem)
    (rel : list string) (b : bool) :
  rel <> [] ->
  (rel, File b) ∈ tree ->
  ignored ign rel = false ->
  (forall b', (rel, File b') ∈ tree -> b' = b) ->
  copy_tree ign remote tree f !! (remote ++ rel) = Some (File b).
Proof.
  intros Hrel Hin Hi Hu. unfold copy_tree.
  apply copy_entries_copy; [exact Hrel| |].
  - apply list_elem_of_filter. split; [exact Hi|exact Hin].
  - intros m Hm. apply list_elem_of_filter in Hm as [_ Hm]. by apply Hu.
Qed.

(** What the image holds of the kinds the mount does not copy was there
    before: the copy writes regular files and makes directories, and no
    link. *)
Lemma copy_tree_no_link (ign : list string)
    (tree : list (list string * node)) (f : filesystem)
    (k : list string) (t : string) :
  copy_tree ign remote tree f !! k = Some (Link t) -> f !! k = Some (Link t).
Proof.
  unfold copy_tree.
  set (kept := filter (fun e => ignored ign e.1 = false) tree).
  clearbody kept.
  assert (Hm : forall g : filesystem,
             mkdirs [] remote g !! k = Some (Link t) ->
             g !! k = Some (Link t)).
  { intros g Hg.
    destruct (decide (mkdirs [] remote g !! k = g !! k)) as [He|Hne];
      [congruence|].
    destruct (mkdirs_changes _ _ _ _ Hne) as (_&_&_&_&_&_&Hd). congruence. }
  intros H. apply Hm. revert H. generalize (mkdirs [] remote f).
  induction kept as [|[rel n] kept IH]; intros g H; [exact H|].
  cbn [fold_left] in H. apply IH in H.
  unfold copy_entry in H. cbn [fst snd] in H.
  destruct rel as [|x rel]; [exact H|].
  destruct n as [b| |t']; [|exact H..].
  destruct (decide (remote ++ x :: rel = k)) as [<-|Hk].
  - rewrite lookup_insert_eq in H. discriminate H.
  - rewrite lookup_insert_ne in H by exact Hk.
    destruct (decide (mkdirs remote (removelast (x :: rel)) g !! k = g !! k))
      as [He|Hne]; [congruence|].
    destruct (mkdirs_changes _ _ _ _ Hne) as (_&_&_&_&_&_&Hd). congruence.
Qed.

End Copies.

(** X13. What is not ignored is copied.  A regular file of the local
    directory whose path the patterns do not match is in the image at that
    path below [/root/app], with its content, whatever else the directory
    holds, provided the directory gives the path one content.  The path is
    one a walk of the directory yields: its components are names of
    entries. *)
Theorem snapshot_copies_kept_files (s : step)
    (tree : list (list string * node)) (base : filesystem)
    (rel : list string) (b : bool) :
  last image = Some s ->
  rel <> [] ->
  Forall (fun c => file_name c = true) rel ->
  (rel, File b) ∈ tree ->
  ignored (ignore_of s) rel = false ->
  (forall b', (rel, File b') ∈ tree -> b' = b) ->
  snapshot s tree base !! (["root"; "app"] ++ rel) = Some (File b).
Proof.
  intros Hs Hrel _ Hin Hi Hu. vm_compute in Hs. injection Hs as <-.
  unfold snapshot.
  replace (posixpath.components "/root/app") with ["root"; "app"]
    by (vm_compute; reflexivity).
  by apply copy_tree_copies.
Qed.

Lemma snapshot_copies_kept_files_witness :
  snapshot
    (AddLocalDir "." "/root/app" true
       ["__pycache__"; ".git"; "*.pyc"; "outputs"; "wan_models";
        "checkpoints"; ".venv"; "uv.lock"; "*.lock"])
    sample_tree downloaded_fs
  !! (["root"; "app"] ++ ["configs"; "self_forcing_server_14b.yaml"])
  = Some (File false).
Proof.
  apply snapshot_copies_kept_files.
  - vm_compute. reflexivity.
  - discriminate.
  - repeat constructor.
  - by_evaluation.
  - vm_compute. reflexivity.
  - intros b' Hb'. unfold sample_tree in Hb'.
    repeat (apply elem_of_cons in Hb' as [Hb'|Hb'];
            [by (injection Hb' as -> || discriminate Hb')|]).
    by apply elem_of_nil in Hb'.
Defined.

(** A file with a newline after the suffix of a compiled pattern is taken
    for a match of the pattern and left out; an entry that is not a regular
    file is not copied. *)
Example snapshot_leaves_out :
  let built :=
    copy_tree ["*.pyc"] ["root"; "app"]
      [(["a.pyc" +:+ newline], File false);
       (["docs"], Dir);
       (["latest"], Link "release_server.py");
       (["release_server.py"], File false)]
      (<[["root"] := Dir]> ∅) in
  built !! ["root"; "app"; "a.pyc" +:+ newline] = None
  /\ built !! ["root"; "app"; "docs"] = None
  /\ built !! ["root"; "app"; "latest"] = None
  /\ built !! ["root"; "app"; "release_server.py"] = Some (File false).
Proof. repeat split; vm_compute; reflexivity. Qed.

(** ** The directories the snapshot makes *)

Section Directories.

Variables (remote : list string).

(** Every directory on the way is there once [mkdirs] is through. *)
Lemma mkdirs_makes (rest : list string) :
  forall (cur : list string) (f : filesystem) (pre suf : list string),
    rest = pre ++ suf -> pre <> [] ->
    is_Some (mkdirs cur rest f !! (cur ++ pre)).
Proof.
  induction rest as [|c rest IH]; intros cur f pre suf Hr Hp.
  - destruct pre; [contradiction|discriminate Hr].
  - destruct pre as [|x pre]; [contradiction|].
    injection Hr as <- Hr. cbn [mkdirs].
    destruct pre as [|y pre].
    + destruct (f !! (cur ++ [c])) as [n|] eqn:E.
      * exists n. by apply mkdirs_keeps.
      * exists Dir. apply mkdirs_keeps. apply lookup_insert_eq.
    + replace (cur ++ c :: y :: pre) with ((cur ++ [c]) ++ y :: pre)
        by (rewrite <- app_assoc; reflexivity).
      by apply (IH _ _ _ suf).
Qed.

(** Where [mkdirs] finds nothing or a directory, it leaves nothing or a
    directory. *)
Lemma mkdirs_dir_or_none (rest cur : list string) (f : filesystem)
    (k : list string) :
  f !! k = None \/ f !! k = Some Dir ->
  mkdirs cur rest f !! k = None \/ mkdirs cur rest f !! k = Some Dir.
Proof.
  intros H.
  destruct (decide (mkdirs cur rest f !! k = f !! k)) as [He|Hne];
    [by rewrite He|].
  destruct (mkdirs_changes _ _ _ _ Hne) as (_&_&_&_&_&_&Hd). by right.
Qed.

Variable (pre : list string).
Hypothesis pre_nonempty : pre <> [].

Lemma copy_entry_dir_or_none (f : filesystem) (e : list string * node) :
  e.1 <> pre ->
  f !! (remote ++ pre) = None \/ f !! (remote ++ pre) = Some Dir ->
  copy_entry remote f e !! (remote ++ pre) = None
  \/ copy_entry remote f e !! (remote ++ pre) = Some Dir.
Proof.
  intros Hne H. unfold copy_entry. destruct (e.1) as [|x rel] eqn:E;
    [exact H|].
  destruct (e.2) as [b| |t]; [|exact H..].
  rewrite lookup_insert_ne.
  - by apply mkdirs_dir_or_none.
  - intros Heq. apply app_inv_head in Heq. congruence.
Qed.

Lemma copy_entry_makes_dir (f : filesystem) (rel : list string) (b : bool)
    (suf : list string) :
  rel = pre ++ suf -> suf <> [] ->
  f !! (remote ++ pre) = None \/ f !! (remote ++ pre) = Some Dir ->
  copy_entry remote f (rel, File b) !! (remote ++ pre) = Some Dir.
Proof.
  intros Hr Hs H. unfold copy_entry. cbn [fst snd].
  assert (rel <> []) as Hrel.
  { rewrite Hr. intros Heq. apply app_eq_nil in Heq as [Heq _].
    by apply pre_nonempty. }
  destruct rel as [|x tl] eqn:E; [contradiction|]. rewrite <- E in *.
  rewrite lookup_insert_ne.
  - assert (exists suf', removelast rel = pre ++ suf') as [suf' Hrl].
    { exists (removelast suf). rewrite Hr. by apply removelast_app. }
    destruct (mkdirs_makes _ remote f pre suf' Hrl pre_nonempty) as [v Hv].
    destruct (mkdirs_dir_or_none (removelast rel) remote f _ H); congruence.
  - intros Heq. apply app_inv_head in Heq.
    rewrite Hr in Heq. rewrite <- (app_nil_r pre) in Heq at 2.
    apply app_inv_head in Heq. congruence.
Qed.

Lemma copy_entries_keep_dir (entries : list (list string * node)) :
  (forall e, e ∈ entries -> e.1 <> pre) ->
  forall f : filesystem,
    f !! (remote ++ pre) = Some Dir ->
    fold_left (copy_entry remote) entries f !! (remote ++ pre) = Some Dir.
Proof.
  induction entries as [|e entries IH]; intros Hne f Hf; [exact Hf|].
  cbn [fold_left]. apply IH.
  - intros e' He'. apply Hne. by right.
  - apply copy_entry_keeps; [exact Hf|].
    intros Heq. apply app_inv_head in Heq.
    apply (Hne e); [by left|done].
Qed.

Lemma copy_entries_make_dir (entries : list (list string * node))
    (rel : list string) (b : bool) (suf : list string) :
  (rel, File b) ∈ entries -> rel = pre ++ suf -> suf <> [] ->
  (forall e, e ∈ entries -> e.1 <> pre) ->
  forall f : filesystem,
    f !! (remote ++ pre) = None \/ f !! (remote ++ pre) = Some Dir ->
    fold_left (copy_entry remote) entries f !! (remote ++ pre) = Some Dir.
Proof.
  intros Hin Hr Hs. induction entries as [|e entries IH]; intros Hne f Hf.
  - by apply elem_of_nil in Hin.
  - cbn [fold_left]. apply elem_of_cons in Hin as [<-|Hin].
    + apply copy_entries_keep_dir; [intros e' He'; apply Hne; by right|].
      by apply (copy_entry_makes_dir f rel b suf).
    + apply IH; [exact Hin|intros e' He'; apply Hne; by right|].
      apply copy_entry_dir_or_none; [apply Hne; by left|exact Hf].
Qed.

(** A directory on the way to a copied file is a directory of the image,
    unless something else was there or the tree has a file of that path. *)
Lemma copy_tree_makes_dir (ign : list string)
    (tree : list (list string * node)) (f : filesystem)
    (rel : list string) (b : bool) (suf : list string) :
  (rel, File b) ∈ tree -> ignored ign rel = false ->
  rel = pre ++ suf -> suf <> [] ->
  (forall e, e ∈ tree -> e.1 <> pre) ->
  f !! (remote ++ pre) = None \/ f !! (remote ++ pre) = Some Dir ->
  copy_tree ign remote tree f !! (remote ++ pre) = Some Dir.
Proof.
  intros Hin Hi Hr Hs Hne Hf. unfold copy_tree.
  apply (copy_entries_make_dir _ rel b suf); try assumption.
  - apply list_elem_of_filter. by split.
  - intros e He. apply list_elem_of_filter in He as [_ He]. by apply Hne.
  - apply mkdirs_dir_or_none. exact Hf.
Qed.

End Directories.

(** ** From the snapshot to the running container *)

Lemma resolve_config_file (w : world) (b : bool) :
  fs w !! ["root"] = Some Dir ->
  fs w !! ["root"; "app"] = Some Dir ->
  fs w !! ["root"; "app"; "configs"] = Some Dir ->
  fs w !! ["root"; "app"; "configs"; "self_forcing_server_14b.yaml"]
  = Some (File b) ->
  resolve true "/root/app/configs/self_forcing_server_14b.yaml" w
  = inr (Found ["root"; "app"; "configs"; "self_forcing_server_14b.yaml"]
           (File b)).
Proof.
  intros H1 H2 H3 H4. unfold resolve. rewrite decide_False by discriminate.
  replace (posixpath.isabs "/root/app/configs/self_forcing_server_14b.yaml")
    with true by (vm_compute; reflexivity).
  replace (posixpath.components
             "/root/app/configs/self_forcing_server_14b.yaml")
    with ["root"; "app"; "configs"; "self_forcing_server_14b.yaml"]
    by (vm_compute; reflexivity).
  cbv iota.
  rewrite walk_cons.
  rewrite decide_False by discriminate. rewrite decide_False by discriminate.
  change ([] ++ ["root"]) with ["root"]. rewrite H1.
  rewrite walk_cons.
  rewrite decide_False by discriminate. rewrite decide_False by discriminate.
  change (["root"] ++ ["app"]) with ["root"; "app"]. rewrite H2.
  rewrite walk_cons.
  rewrite decide_False by discriminate. rewrite decide_False by discriminate.
  change (["root"; "app"] ++ ["configs"]) with ["root"; "app"; "configs"].
  rewrite H3.
  rewrite walk_cons.
  rewrite decide_False by discriminate. rewrite decide_False by discriminate.
  change (["root"; "app"; "configs"] ++ ["self_forcing_server_14b.yaml"])
    with ["root"; "app"; "configs"; "self_forcing_server_14b.yaml"].
  rewrite H4. reflexivity.
Qed.

(** X14. The configuration the server is pointed at is in the container.
    When the local directory holds the file
    [configs/self_forcing_server_14b.yaml] and the layers below have left
    nothing at or below [/root/app], then in a container started from the
    image, after [web] has run (whether it returned or raised, and with or
    without the link made), the value of [CONFIG] is the path of a regular
    file: the copy of that file. *)
Theorem config_file_is_in_place (s : step)
    (tree : list (list string * node)) (base : filesystem) (b : bool)
    (w : world) :
  last image = Some s ->
  base !! ["root"] = Some Dir ->
  (forall q, base !! (["root"; "app"] ++ q) = None) ->
  (["configs"; "self_forcing_server_14b.yaml"], File b) ∈ tree ->
  (forall n,
     (["configs"; "self_forcing_server_14b.yaml"], n) ∈ tree -> n = File b) ->
  (forall e, e ∈ tree -> e.1 <> ["configs"]) ->
  fs w = snapshot s tree base ->
  exists v,
    environ (after (web w)) !! "CONFIG" = Some v
    /\ resolve true v (after (web w))
       = inr (Found ["root"; "app"; "configs"; "self_forcing_server_14b.yaml"]
                (File b))
    /\ exists_in v (after (web w)) = true.
Proof.
  intros Hs Hroot Hfresh Hin Hu Hnd Hw.
  vm_compute in Hs. injection Hs as <-.
  assert (Hi : ignored
                 ["__pycache__"; ".git"; "*.pyc"; "outputs"; "wan_models";
                  "checkpoints"; ".venv"; "uv.lock"; "*.lock"]
                 ["configs"; "self_forcing_server_14b.yaml"] = false)
    by (vm_compute; reflexivity).
  assert (Hsnap : fs w
                  = copy_tree
                      ["__pycache__"; ".git"; "*.pyc"; "outputs";
                       "wan_models"; "checkpoints"; ".venv"; "uv.lock";
                       "*.lock"]
                      ["root"; "app"] tree base).
  { rewrite Hw. unfold snapshot.
    replace (posixpath.components "/root/app") with ["root"; "app"]
      by (vm_compute; reflexivity).
    reflexivity. }
  assert (H4 : fs w !! ["root"; "app"; "configs";
                        "self_forcing_server_14b.yaml"] = Some (File b)).
  { rewrite Hsnap.
    apply (copy_tree_copies ["root"; "app"] _ tree base
             ["configs"; "self_forcing_server_14b.yaml"] b);
      try assumption; [discriminate|].
    intros b' Hb'. apply Hu in Hb'. by injection Hb'. }
  assert (H3 : fs w !! ["root"; "app"; "configs"] = Some Dir).
  { rewrite Hsnap.
    apply (copy_tree_makes_dir ["root"; "app"] ["configs"] ltac:(discriminate)
             _ tree base ["configs"; "self_forcing_server_14b.yaml"]
             b ["self_forcing_server_14b.yaml"]);
      try assumption; try reflexivity; try discriminate.
    left. apply (Hfresh ["configs"]). }
  assert (H2 : fs w !! ["root"; "app"] = Some Dir).
  { rewrite Hsnap. apply copy_tree_makes_app_root; [exact Hroot|].
    apply (Hfresh []). }
  assert (H1 : fs w !! ["root"] = Some Dir).
  { rewrite Hsnap.
    match goal with |- ?m !! ?k = _ =>
      destruct (decide (m !! k = base !! k)) as [He|Hne] end;
      [congruence|].
    destruct (copy_tree_changes _ _ _ _ _ Hne)
      as [(e&pre&_&_&_&_&Hk)|(_&_&Hn&_)]; [discriminate Hk|congruence]. }
  assert (Hres := resolve_config_file w b H1 H2 H3 H4).
  destruct (assigned_populated (environ w)) as (_&Hc&_&_).
  exists "/root/app/configs/self_forcing_server_14b.yaml".
  rewrite web_environ.
  assert (Hafter :
            resolve true "/root/app/configs/self_forcing_server_14b.yaml"
              (after (web w))
            = inr (Found ["root"; "app"; "configs";
                          "self_forcing_server_14b.yaml"] (File b))).
  { destruct (web_fs w) as [Hf|(d&Hd&Hx&Hf)].
    - rewrite (resolve_abs true _ (after (web w)) w); [exact Hres| |exact Hf].
      vm_compute. reflexivity.
    - rewrite (resolve_abs true _ (after (web w))
                 (with_fs (<[d ++ ["checkpoints"] := Link "/root/checkpoints"]>
                             (fs w)) w)).
      + by apply resolve_insert_found.
      + vm_compute. reflexivity.
      + exact Hf. }
  split; [exact Hc|]. split; [exact Hafter|].
  unfold exists_in. rewrite Hafter. reflexivity.
Qed.

Lemma config_file_is_in_place_witness :
  exists v,
    environ (after (web built_instance)) !! "CONFIG" = Some v
    /\ resolve true v (after (web built_instance))
       = inr (Found ["root"; "app"; "configs"; "self_forcing_server_14b.yaml"]
                (File false))
    /\ exists_in v (after (web built_instance)) = true.
Proof.
  apply (config_file_is_in_place
           (AddLocalDir "." "/root/app" true
              ["__pycache__"; ".git"; "*.pyc"; "outputs"; "wan_models";
               "checkpoints"; ".venv"; "uv.lock"; "*.lock"])
           sample_tree downloaded_fs false built_instance).
  - vm_compute. reflexivity.
  - vm_compute. reflexivity.
  - intros q. unfold downloaded_fs. apply not_elem_of_list_to_map_1.
    cbn [fmap list_fmap fst]. intros Hq.
    repeat (apply elem_of_cons in Hq as [Hq|Hq]; [discriminate Hq|]).
    by apply elem_of_nil in Hq.
  - by_evaluation.
  - intros n Hn. unfold sample_tree in Hn.
    repeat (apply elem_of_cons in Hn as [Hn|Hn];
            [by (injection Hn as -> || discriminate Hn)|]).
    by apply elem_of_nil in Hn.
  - intros e He. unfold sample_tree in He.
    repeat (apply elem_of_cons in He as [->|He]; [discriminate|]).
    by apply elem_of_nil in He.
  - reflexivity.
Defined.
